(** * FFM.js: a personality profile in the Five Factor Model

    Shallow embedding of [src/FFM.js].  A JavaScript number is an IEEE 754
    binary64 value, modelled by Rocq's primitive [float] (same format, same
    round-to-nearest-even arithmetic, a single NaN).  A call that can
    [throw] returns a [completion]; the setters, which mutate [this], return
    the completion together with the object after the call. *)

From Stdlib Require Import ZArith Floats String Ascii List Bool Lia.
Import ListNotations.
Set Warnings "-inexact-float".

Local Open Scope Z_scope.

(** ** Host language *)

(** Outcome of evaluating a call: a value, or [throw new Error(message)]. *)
Inductive completion (A : Type) : Type :=
| Normal (value : A)
| Throw (message : string).
Arguments Normal {A} value.
Arguments Throw {A} message.

Definition bind {A B : Type} (c : completion A) (k : A -> completion B)
  : completion B :=
  match c with
  | Normal a => k a
  | Throw msg => Throw msg
  end.

Notation "x <- c ;; k" := (bind c (fun x => k))
  (at level 61, c at next level, right associativity).

Module Num.

(** [a >= b] on numbers. *)
Definition geb (a b : float) : bool := (b <=? a)%float.

(** The non-negative integer [k] as a number (exact below 2^53). *)
Definition of_Z (k : Z) : float := of_uint63 (Uint63.of_Z k).

(** Ceiling of [m * 2^e] for a negative exponent [e]. *)
Definition ceil_pos (m : positive) (e : Z) : Z :=
  - ((- Zpos m) / 2 ^ (- e)).

(** [Math.ceil]: NaN, the infinities, the zeros and every number with a
    non-negative exponent are their own ceiling; a negative number above
    -1 goes to -0. *)
Definition Math_ceil (x : float) : float :=
  match Prim2SF x with
  | S754_finite s m e =>
      if 0 <=? e then x
      else if s then
             let k := Zpos m / 2 ^ (- e) in
             if k =? 0 then neg_zero else (- of_Z k)%float
           else of_Z (ceil_pos m e)
  | _ => x
  end.

(** [Math.max] and [Math.min] of two numbers: NaN if either is NaN, and
    -0 counts as smaller than +0. *)
Definition Math_max (a b : float) : float :=
  if is_nan a || is_nan b then nan
  else if (a <? b)%float then b
  else if (b <? a)%float then a
  else if get_sign a then b else a.

Definition Math_min (a b : float) : float :=
  if is_nan a || is_nan b then nan
  else if (a <? b)%float then a
  else if (b <? a)%float then b
  else if get_sign a then a else b.

(** *** Number::toString, radix 10 (ECMA-262, 6.1.6.1.20) *)

Definition digit (d : Z) : ascii := ascii_of_nat (48 + Z.to_nat d).

(** The [k] low decimal digits of [s], most significant first. *)
Fixpoint digits (k : nat) (s : Z) (acc : string) : string :=
  match k with
  | O => acc
  | S k' => digits k' (s / 10) (String (digit (s mod 10)) acc)
  end.

Fixpoint zeros (k : nat) : string :=
  match k with
  | O => EmptyString
  | S k' => String "0" (zeros k')
  end.

(** Number of decimal digits of a positive integer. *)
Fixpoint ndigits (fuel : nat) (s : Z) : nat :=
  match fuel with
  | O => O
  | S fuel' => if s <? 10 then 1%nat else S (ndigits fuel' (s / 10))
  end.

Definition nat_string (s : Z) : string :=
  digits (ndigits 400 s) s EmptyString.

(** Least [n], searching upwards from [n], with [m * 2^e < 10^n]. *)
Fixpoint magnitude (fuel : nat) (m e n : Z) : Z :=
  match fuel with
  | O => n
  | S fuel' =>
      if m * 2 ^ Z.max e 0 * 10 ^ Z.max (- n) 0
         <? 10 ^ Z.max n 0 * 2 ^ Z.max (- e) 0
      then n else magnitude fuel' m e (n + 1)
  end.

(** A decimal [s * 10^(n-k)] with [k] digits that rounds to the number
    [m * 2^e], together with its distance to that number. *)
Record decimal := { dec_s : Z; dec_n : Z; dec_dist : Z }.

Definition closer (a b : decimal) : decimal :=
  if dec_dist a <? dec_dist b then a
  else if dec_dist b <? dec_dist a then b
  else if Z.even (dec_s a) then a else b.

Definition best (l : list decimal) : option decimal :=
  match l with
  | [] => None
  | d :: l' => Some (fold_left closer l' d)
  end.

(** The decimals of exactly [k] digits that round to [m * 2^e].  All
    quantities are integers in the unit [10^q0 * 2^g0]; the rounding
    interval of the number reaches half way to its two neighbours, the
    lower one being twice as near at the bottom of a binade, and includes
    its end points when the mantissa is even. *)
Definition candidates (m e n0 k : Z) : list decimal :=
  let g := e - 2 in
  let g0 := Z.min g 0 in
  let q0 := Z.min (n0 - k) 0 in
  let u := 2 ^ (g - g0) * 10 ^ (- q0) in
  let below := if (m =? 2 ^ 52) && (-1074 <? e) then 1 else 2 in
  let x := 4 * m * u in
  let lo := (4 * m - below) * u in
  let hi := (4 * m + 2) * u in
  let inside c :=
    if Z.even m then (lo <=? c) && (c <=? hi) else (lo <? c) && (c <? hi) in
  flat_map (fun n =>
    let p := 10 ^ (n - k - q0) * 2 ^ (- g0) in
    let f := x / p in
    flat_map (fun s =>
      if (10 ^ (k - 1) <=? s) && (s <? 10 ^ k) && inside (s * p)
      then [{| dec_s := s; dec_n := n; dec_dist := Z.abs (s * p - x) |}]
      else [])
      [f; f + 1])
    [n0; n0 + 1].

(** The shortest such decimal: [k] as small as possible, then the one
    closest to the number. *)
Fixpoint shortest (fuel : nat) (m e n0 k : Z) : Z * Z * Z :=
  match fuel with
  | O => (m, k, n0)
  | S fuel' =>
      match best (candidates m e n0 k) with
      | Some d => (dec_s d, k, dec_n d)
      | None => shortest fuel' m e n0 (k + 1)
      end
  end.

Local Open Scope string_scope.

Definition render (s k n : Z) : string :=
  let ds := digits (Z.to_nat k) s EmptyString in
  if ((-5 <=? n) && (n <=? 21))%Z then
    if (k <=? n)%Z then ds ++ zeros (Z.to_nat (n - k))
    else if (0 <? n)%Z then
      substring 0 (Z.to_nat n) ds ++ "." ++
      substring (Z.to_nat n) (Z.to_nat (k - n)) ds
    else "0." ++ zeros (Z.to_nat (- n)) ++ ds
  else
    let ex := (n - 1)%Z in
    let sign := if (ex <? 0)%Z then "-" else "+" in
    if (k =? 1)%Z then ds ++ "e" ++ sign ++ nat_string (Z.abs ex)
    else substring 0 1 ds ++ "." ++ substring 1 (Z.to_nat (k - 1)) ds
         ++ "e" ++ sign ++ nat_string (Z.abs ex).

Definition Number_toString (x : float) : string :=
  match Prim2SF x with
  | S754_nan => "NaN"
  | S754_zero _ => "0"
  | S754_infinity s => if s then "-Infinity" else "Infinity"
  | S754_finite sg m e =>
      let n0 := magnitude 700 (Zpos m) e (-330)%Z in
      let '(s, k, n) := shortest 17 (Zpos m) e n0 1 in
      (if sg then "-" else "") ++ render s k n
  end.

End Num.

Local Open Scope string_scope.

(** ** The FFM class *)

(** An instance: the five backing fields. *)
Record FFM : Type := mkFFM {
  _openness : float;
  _conscientiousness : float;
  _extraversion : float;
  _agreeableness : float;
  _neuroticism : float
}.

Definition TRAIT_VALUE_MIN : float := 0.0.
Definition TRAIT_VALUE_MAX : float := 1.0.
Definition TRAIT_VALUE_AVG : float := 0.5.

Definition trait_isInRange (value : float) : bool :=
  Num.geb value TRAIT_VALUE_MIN && (value <=? TRAIT_VALUE_MAX)%float.

Definition range_message : string :=
  "Personality trait values must be between 0 and 1.0 inclusive.".

(** [new FFM(...)]: the object exists only on normal completion. *)
Definition constructor
  (openness conscientiousness extraversion agreeableness neuroticism : float)
  : completion FFM :=
  if negb (trait_isInRange openness)
     || negb (trait_isInRange conscientiousness)
     || negb (trait_isInRange extraversion)
     || negb (trait_isInRange agreeableness)
     || negb (trait_isInRange neuroticism)
  then Throw range_message
  else Normal (mkFFM openness conscientiousness extraversion
                     agreeableness neuroticism).

Definition createAveragePersonality : completion FFM :=
  constructor TRAIT_VALUE_AVG TRAIT_VALUE_AVG TRAIT_VALUE_AVG
              TRAIT_VALUE_AVG TRAIT_VALUE_AVG.

Definition epsilon : float := 1e-10.

Definition calculateLikertScore (value : float) : completion float :=
  if negb (trait_isInRange value) then Throw range_message
  else
    let score := Num.Math_ceil ((value + epsilon) * 5)%float in
    Normal (Num.Math_min (Num.Math_max score 1) 5).

(** *** Accessors *)

Definition get_openness (this : FFM) : float := _openness this.
Definition get_conscientiousness (this : FFM) : float := _conscientiousness this.
Definition get_extraversion (this : FFM) : float := _extraversion this.
Definition get_agreeableness (this : FFM) : float := _agreeableness this.
Definition get_neuroticism (this : FFM) : float := _neuroticism this.

(** A setter returns its completion and the object as the call leaves it:
    the [throw] comes before the assignment. *)
Definition set_openness (value : float) (this : FFM) : completion unit * FFM :=
  if negb (trait_isInRange value)
  then (Throw "Openness value must be between 0 and 1.0 inclusive.", this)
  else (Normal tt,
        mkFFM value (_conscientiousness this) (_extraversion this)
              (_agreeableness this) (_neuroticism this)).

Definition set_conscientiousness (value : float) (this : FFM)
  : completion unit * FFM :=
  if negb (trait_isInRange value)
  then (Throw "Conscientiousness value must be between 0 and 1.0 inclusive.",
        this)
  else (Normal tt,
        mkFFM (_openness this) value (_extraversion this)
              (_agreeableness this) (_neuroticism this)).

Definition set_extraversion (value : float) (this : FFM)
  : completion unit * FFM :=
  if negb (trait_isInRange value)
  then (Throw "Extraversion value must be between 0 and 1.0 inclusive.", this)
  else (Normal tt,
        mkFFM (_openness this) (_conscientiousness this) value
              (_agreeableness this) (_neuroticism this)).

Definition set_agreeableness (value : float) (this : FFM)
  : completion unit * FFM :=
  if negb (trait_isInRange value)
  then (Throw "Agreeableness value must be between 0 and 1.0 inclusive.", this)
  else (Normal tt,
        mkFFM (_openness this) (_conscientiousness this) (_extraversion this)
              value (_neuroticism this)).

Definition set_neuroticism (value : float) (this : FFM)
  : completion unit * FFM :=
  if negb (trait_isInRange value)
  then (Throw "Neuroticism value must be between 0 and 1.0 inclusive.", this)
  else (Normal tt,
        mkFFM (_openness this) (_conscientiousness this) (_extraversion this)
              (_agreeableness this) value).

(** The five properties, to quantify over the accessors. *)
Inductive trait : Type :=
| openness | conscientiousness | extraversion | agreeableness | neuroticism.

Definition getter (t : trait) : FFM -> float :=
  match t with
  | openness => get_openness
  | conscientiousness => get_conscientiousness
  | extraversion => get_extraversion
  | agreeableness => get_agreeableness
  | neuroticism => get_neuroticism
  end.

Definition setter (t : trait) : float -> FFM -> completion unit * FFM :=
  match t with
  | openness => set_openness
  | conscientiousness => set_conscientiousness
  | extraversion => set_extraversion
  | agreeableness => set_agreeableness
  | neuroticism => set_neuroticism
  end.

(** The property name with its first letter in upper case. *)
Definition trait_name (t : trait) : string :=
  match t with
  | openness => "Openness"
  | conscientiousness => "Conscientiousness"
  | extraversion => "Extraversion"
  | agreeableness => "Agreeableness"
  | neuroticism => "Neuroticism"
  end.

(** *** describe *)

(** An object literal with string keys, in insertion order. *)
Definition object (A : Type) : Type := list (string * A).

Fixpoint prop {A : Type} (o : object A) (key : string) (default : A) : A :=
  match o with
  | [] => default
  | (k, v) :: o' => if String.eqb k key then v else prop o' key default
  end.

Fixpoint assign {A : Type} (o : object A) (key : string) (v : A) : object A :=
  match o with
  | [] => [(key, v)]
  | (k, w) :: o' =>
      if String.eqb k key then (k, v) :: o' else (k, w) :: assign o' key v
  end.

(** Body of the [for (const trait in traits)] loop. *)
Definition describe_step (descriptions : object string)
  (entry : string * float) : completion (object string) :=
  let '(trait, value) := entry in
  score <- calculateLikertScore value ;;
  Normal
    (if (score =? 1)%float then assign descriptions trait ("not " ++ trait)
     else if (score =? 2)%float
          then assign descriptions trait ("slightly " ++ trait)
     else if (score =? 3)%float
          then assign descriptions trait ("somewhat " ++ trait)
     else if (score =? 4)%float
          then assign descriptions trait ("moderately " ++ trait)
     else if (score =? 5)%float
          then assign descriptions trait ("strongly " ++ trait)
     else descriptions).

Fixpoint for_in {A B : Type} (body : B -> string * A -> completion B)
  (o : object A) (acc : B) : completion B :=
  match o with
  | [] => Normal acc
  | entry :: o' => acc' <- body acc entry ;; for_in body o' acc'
  end.

Definition describe (this : FFM) : completion string :=
  let traits : object float :=
    [("open", _openness this);
     ("conscientious", _conscientiousness this);
     ("extraverted", _extraversion this);
     ("agreeable", _agreeableness this);
     ("neurotic", _neuroticism this)] in
  let descriptions : object string :=
    [("open", ""); ("conscientious", ""); ("extraverted", "");
     ("agreeable", ""); ("neurotic", "")] in
  descriptions <- for_in describe_step traits descriptions ;;
  Normal ("According to the Five Factor Model this personality is: "
          ++ prop descriptions "open" "undefined" ++ ", "
          ++ prop descriptions "conscientious" "undefined" ++ ", "
          ++ prop descriptions "extraverted" "undefined" ++ ", "
          ++ prop descriptions "agreeable" "undefined" ++ ", and "
          ++ prop descriptions "neurotic" "undefined" ++ ".").

(** *** toString *)

Definition toString (this : FFM) : completion string :=
  let normalized :=
    "O:" ++ Num.Number_toString (_openness this)
    ++ ", C:" ++ Num.Number_toString (_conscientiousness this)
    ++ ", E:" ++ Num.Number_toString (_extraversion this)
    ++ ", A:" ++ Num.Number_toString (_agreeableness this)
    ++ ", N:" ++ Num.Number_toString (_neuroticism this) in
  lo <- calculateLikertScore (_openness this) ;;
  lc <- calculateLikertScore (_conscientiousness this) ;;
  le <- calculateLikertScore (_extraversion this) ;;
  la <- calculateLikertScore (_agreeableness this) ;;
  ln <- calculateLikertScore (_neuroticism this) ;;
  let likert :=
    "O:" ++ Num.Number_toString lo
    ++ ", C:" ++ Num.Number_toString lc
    ++ ", E:" ++ Num.Number_toString le
    ++ ", A:" ++ Num.Number_toString la
    ++ ", N:" ++ Num.Number_toString ln in
  Normal ("FFM[Normalized:{" ++ normalized ++ "}, Likert:{" ++ likert ++ "}]").

(** *** Objects a caller can hold *)

(** Built by [new FFM] or [createAveragePersonality], then changed only
    through the setters, whether a call completes normally or throws. *)
Inductive reachable : FFM -> Prop :=
| reach_new o c e a n this :
    constructor o c e a n = Normal this -> reachable this
| reach_average this :
    createAveragePersonality = Normal this -> reachable this
| reach_set t value this :
    reachable this -> reachable (snd (setter t value this)).


(** *** toJSON *)

(** The returned object: two nested objects keyed by the property names. *)
Record json_view : Type := mkView {
  normalized : object float;
  likert : object float
}.

Definition toJSON (this : FFM) : completion json_view :=
  lo <- calculateLikertScore (_openness this) ;;
  lc <- calculateLikertScore (_conscientiousness this) ;;
  le <- calculateLikertScore (_extraversion this) ;;
  la <- calculateLikertScore (_agreeableness this) ;;
  ln <- calculateLikertScore (_neuroticism this) ;;
  let likert : object float :=
    [("openness", lo); ("conscientiousness", lc); ("extraversion", le);
     ("agreeableness", la); ("neuroticism", ln)] in
  Normal
    {| normalized :=
         [("openness", _openness this);
          ("conscientiousness", _conscientiousness this);
          ("extraversion", _extraversion this);
          ("agreeableness", _agreeableness this);
          ("neuroticism", _neuroticism this)];
       likert := likert |}.

(** ** Vocabulary of the statements *)

(** All five stored fields pass the range check. *)
Definition valid (this : FFM) : Prop :=
  forall t, trait_isInRange (getter t this) = true.

Definition completes {A : Type} (c : completion A) : Prop :=
  exists a, c = Normal a.

(** One of the five Likert levels, as a number. *)
Definition is_level (s : float) : Prop :=
  s = 1%float \/ s = 2%float \/ s = 3%float \/ s = 4%float \/ s = 5%float.

(** The adverb [describe] attaches to a Likert level. *)
Definition adverb (score : float) : string :=
  if (score =? 1)%float then "not"
  else if (score =? 2)%float then "slightly"
  else if (score =? 3)%float then "somewhat"
  else if (score =? 4)%float then "moderately"
  else if (score =? 5)%float then "strongly"
  else "".

(** The key of [traits] and [descriptions] under which [describe] files a
    property. *)
Definition adjective (t : trait) : string :=
  match t with
  | openness => "open"
  | conscientiousness => "conscientious"
  | extraversion => "extraverted"
  | agreeableness => "agreeable"
  | neuroticism => "neurotic"
  end.

(** The Likert level of a stored field, when the conversion completes. *)
Definition level (t : trait) (this : FFM) : completion float :=
  calculateLikertScore (getter t this).

(** The five conversions that [describe], [toJSON] and [toString] each run,
    in the order of the source: openness first, neuroticism last. *)
Definition levels (this : FFM)
  : completion (float * float * float * float * float) :=
  lo <- calculateLikertScore (_openness this) ;;
  lc <- calculateLikertScore (_conscientiousness this) ;;
  le <- calculateLikertScore (_extraversion this) ;;
  la <- calculateLikertScore (_agreeableness this) ;;
  ln <- calculateLikertScore (_neuroticism this) ;;
  Normal (lo, lc, le, la, ln).

(** The score computed from the integer [k] that [Math.ceil] returned. *)
Definition score_of_ceiling (k : Z) : float :=
  Num.Math_min (Num.Math_max (Num.of_Z k) 1) 5.

(** The integer [Math.ceil] returns inside [calculateLikertScore]. *)
Definition ceiling (value : float) : Z :=
  match Prim2SF ((value + epsilon) * 5)%float with
  | S754_finite false m e => Num.ceil_pos m e
  | _ => 0%Z
  end.

(** ** Binary64 rounding, in integers

    The format's operations of [SpecFloat] in closed form.  The value
    [m * 2^e] is measured in units of [2^b] for a base exponent [b] below
    every exponent in play, so that all quantities are integers. *)

Module Round.

Local Open Scope Z_scope.

Definition fexp64 (d : Z) : Z := SpecFloat.fexp prec emax d.

(** [M / 2^n] rounded to the nearest integer, ties to even. *)
Definition rne (M n : Z) : Z :=
  let q := M / 2 ^ n in
  match 2 * (M mod 2 ^ n) ?= 2 ^ n with
  | Lt => q
  | Gt => q + 1
  | Eq => if Z.even q then q else q + 1
  end.

(** [q] is the multiple of the grid step [g] nearest to [x], ties to even. *)
Definition nearest_even (x g q : Z) : Prop :=
  2 * x - g <= 2 * q * g <= 2 * x + g /\
  (2 * q * g = 2 * x + g \/ 2 * q * g = 2 * x - g -> Z.even q = true).

(** What [n] right shifts of the mantissa [M] have left in the record. *)
Definition shr_inv (M n : Z) (r : shr_record) : Prop :=
  let R := M - shr_m r * 2 ^ n in
  0 <= shr_m r /\ 0 <= R < 2 ^ n /\
  match shr_r r, shr_s r with
  | false, false => R = 0
  | false, true => 0 < 2 * R < 2 ^ n
  | true, false => 2 * R = 2 ^ n
  | true, true => 2 ^ n < 2 * R
  end.

(** The number with rounded mantissa [q] at exponent [E], renormalised
    when the mantissa has reached [2^53]. *)
Definition pack (q E : Z) : spec_float :=
  match q with
  | Z0 => S754_zero false
  | Zpos m =>
      if Pos.eqb m 9007199254740992
      then if E + 1 <=? 971 then S754_finite false 4503599627370496 (E + 1)
           else S754_infinity false
      else if E <=? 971 then S754_finite false m E else S754_infinity false
  | Zneg _ => S754_nan
  end.

(** Rounded mantissa of the exact value [M * 2^e]. *)
Definition round_q (M e : Z) : Z :=
  let E := fexp64 (Zdigits2 M + e) in
  if e <=? E then rne M (E - e) else M * 2 ^ (e - E).

Definition val (b M e : Z) : Z := M * 2 ^ (e - b).

Definition fval (b : Z) (x : spec_float) : Z :=
  match x with
  | S754_finite false m e => val b (Zpos m) e
  | _ => 0
  end.

Definition rval (b M e : Z) : Z :=
  round_q M e * 2 ^ (fexp64 (Zdigits2 M + e) - b).

(** The numbers [1e-10], [5] and [1]. *)
Definition EPS : spec_float := S754_finite false 7737125245533627 (-86).
Definition FIVE : spec_float := S754_finite false 5629499534213120 (-50).
Definition ONE : spec_float := S754_finite false 4503599627370496 (-52).

(** A zero or a positive finite number of the format. *)
Definition nonneg (x : spec_float) : bool :=
  match x with
  | S754_zero _ => true
  | S754_finite false m e => bounded prec emax m e
  | _ => false
  end.

(** Exact sum of a non-negative number and [EPS]: mantissa and exponent. *)
Definition sum_of (x : spec_float) : Z * Z :=
  match x with
  | S754_finite false m e =>
      (Zpos m * 2 ^ (e - Z.min e (-86))
       + 7737125245533627 * 2 ^ (-86 - Z.min e (-86)), Z.min e (-86))
  | _ => (7737125245533627, -86)
  end.

(** [(x + 1e-10) * 5] on the format. *)
Definition likert_exact (x : spec_float) : spec_float :=
  SF64mul (SF64add x EPS) FIVE.

End Round.

(** * Properties *)


(** ** Binary64 rounding is monotone *)

Module RoundFacts.

Import Round.
Local Open Scope Z_scope.

Lemma fexp64_eq d : fexp64 d = Z.max (d - 53) (-1074).
Proof. reflexivity. Qed.

Lemma pow2_double k : 0 < k -> 2 ^ k = 2 * 2 ^ (k - 1).
Proof.
  intros Hk. replace k with (Z.succ (k - 1)) at 1 by lia.
  apply Z.pow_succ_r. lia.
Qed.

Lemma digits2_bounds p :
  2 ^ (Zpos (digits2_pos p) - 1) <= Zpos p < 2 ^ Zpos (digits2_pos p).
Proof.
  induction p as [p IH | p IH |]; cbn [digits2_pos].
  - rewrite Pos2Z.inj_succ, (Pos2Z.inj_xI p).
    replace (Z.succ (Zpos (digits2_pos p)) - 1) with (Zpos (digits2_pos p)) by lia.
    rewrite Z.pow_succ_r by lia.
    rewrite (pow2_double (Zpos (digits2_pos p))) in * by lia. lia.
  - rewrite Pos2Z.inj_succ, (Pos2Z.inj_xO p).
    replace (Z.succ (Zpos (digits2_pos p)) - 1) with (Zpos (digits2_pos p)) by lia.
    rewrite Z.pow_succ_r by lia.
    rewrite (pow2_double (Zpos (digits2_pos p))) in * by lia. lia.
  - change (2 ^ (1 - 1) <= 1 < 2 ^ 1). rewrite Z.pow_1_r. change (1 - 1) with 0. rewrite Z.pow_0_r. lia.
Qed.

Lemma Zdigits2_bounds M :
  0 < M -> 2 ^ (Zdigits2 M - 1) <= M < 2 ^ Zdigits2 M.
Proof.
  destruct M as [| p | p]; try lia. intros _. apply digits2_bounds.
Qed.

Lemma Zdigits2_pos M : 0 < M -> 0 < Zdigits2 M.
Proof. destruct M; simpl; lia. Qed.

Lemma pow2_pos k : 0 <= k -> 0 < 2 ^ k.
Proof. intros. apply Z.pow_pos_nonneg; lia. Qed.

Lemma pow2_le a c : 0 <= a <= c -> 2 ^ a <= 2 ^ c.
Proof. intros. apply Z.pow_le_mono_r; lia. Qed.

Lemma pow2_split a c : 0 <= a -> 0 <= c -> 2 ^ (a + c) = 2 ^ a * 2 ^ c.
Proof. intros. apply Z.pow_add_r; assumption. Qed.

(** The number of digits is determined by the bounds. *)
Lemma Zdigits2_unique M d :
  2 ^ (d - 1) <= M < 2 ^ d -> 0 < d -> Zdigits2 M = d.
Proof.
  intros [Hl Hu] Hd.
  assert (HM : 0 < M) by (pose proof (pow2_pos (d - 1)); lia).
  destruct (Zdigits2_bounds M HM) as [Hl' Hu'].
  pose proof (Zdigits2_pos M HM) as Hp.
  destruct (Z.lt_trichotomy (Zdigits2 M) d) as [H | [H | H]]; trivial; exfalso.
  - assert (2 ^ Zdigits2 M <= 2 ^ (d - 1)) by (apply pow2_le; lia). lia.
  - assert (2 ^ d <= 2 ^ (Zdigits2 M - 1)) by (apply pow2_le; lia). lia.
Qed.

Lemma shr_inv_init M : 0 <= M -> shr_inv M 0 (Build_shr_record M false false).
Proof. unfold shr_inv; cbn [shr_m shr_r shr_s]. rewrite Z.pow_0_r. lia. Qed.

Lemma shr_1_m m r s :
  0 <= m ->
  shr_1 (Build_shr_record m r s) = Build_shr_record (m / 2) (Z.odd m) (orb r s).
Proof.
  intros Hm. rewrite <- Z.div2_div.
  destruct m as [| [p | p |] | p]; try lia; reflexivity.
Qed.

Lemma shr_inv_step M n r :
  0 <= n -> shr_inv M n r -> shr_inv M (n + 1) (shr_1 r).
Proof.
  intros Hn. destruct r as [m r s]. unfold shr_inv at 1; cbn [shr_m shr_r shr_s].
  intros (Hm & HR & Hloc). rewrite (shr_1_m m r s Hm).
  unfold shr_inv; cbn [shr_m shr_r shr_s].
  rewrite pow2_split, Z.pow_1_r by lia.
  pose proof (pow2_pos n Hn) as Hp.
  set (P := 2 ^ n) in *.
  assert (Hz : orb r s = false <-> M - m * P = 0).
  { destruct r, s; cbn; split; intros; try discriminate; try lia. }
  pose proof (Z.div_mod m 2 ltac:(lia)) as Hdm.
  pose proof (Zmod_odd m) as Hodd.
  set (h := m / 2) in *. set (R := M - m * P) in *.
  assert (HR' : M - h * (P * 2) = R + (m mod 2) * P) by (unfold R; nia).
  rewrite HR'. clear HR'.
  destruct (Z.odd m), (orb r s) eqn:Ers; rewrite Hodd;
    (split; [unfold h; apply Z.div_pos; lia |]).
  - assert (R <> 0) by (intros E; apply Hz in E; discriminate). lia.
  - assert (R = 0) by (apply Hz; reflexivity). lia.
  - assert (R <> 0) by (intros E; apply Hz in E; discriminate). lia.
  - assert (R = 0) by (apply Hz; reflexivity). lia.
Qed.

Lemma iter_pos_ind (P : Z -> shr_record -> Prop) :
  (forall n r, 0 <= n -> P n r -> P (n + 1) (shr_1 r)) ->
  forall p n r, 0 <= n -> P n r -> P (n + Zpos p) (iter_pos shr_1 p r).
Proof.
  intros Hstep. induction p as [p IH | p IH |]; intros n r Hn HP; cbn [iter_pos].
  - replace (n + Zpos p~1) with (n + 1 + Zpos p + Zpos p) by lia.
    apply IH; [lia |]. apply IH; [lia |]. apply Hstep; assumption.
  - replace (n + Zpos p~0) with (n + Zpos p + Zpos p) by lia.
    apply IH; [lia |]. apply IH; assumption.
  - apply Hstep; assumption.
Qed.

Lemma shr_inv_iter M p :
  0 <= M -> shr_inv M (Zpos p) (iter_pos shr_1 p (Build_shr_record M false false)).
Proof.
  intros HM. change (Zpos p) with (0 + Zpos p).
  apply (iter_pos_ind (shr_inv M)); [apply shr_inv_step | lia | apply shr_inv_init; assumption].
Qed.

Lemma shr_inv_rne M n r :
  0 <= n -> shr_inv M n r ->
  round_nearest_even (shr_m r) (loc_of_shr_record r) = rne M n.
Proof.
  intros Hn. destruct r as [m r s]. unfold shr_inv; cbn [shr_m shr_r shr_s].
  intros (Hm & HR & Hloc). unfold rne.
  pose proof (pow2_pos n Hn) as Hp. set (P := 2 ^ n) in *.
  assert (Hq : M / P = m) by (symmetry; apply (Z.div_unique _ _ _ (M - m * P)); lia).
  assert (Hr : M mod P = M - m * P) by (symmetry; apply (Z.mod_unique _ _ m); lia).
  rewrite Hq, Hr.
  destruct r, s; cbn [loc_of_shr_record round_nearest_even].
  - replace (2 * (M - m * P) ?= P) with Gt by (symmetry; apply Z.compare_gt_iff; lia). reflexivity.
  - replace (2 * (M - m * P) ?= P) with Eq by (symmetry; apply Z.compare_eq_iff; lia). reflexivity.
  - replace (2 * (M - m * P) ?= P) with Lt by (symmetry; apply Z.compare_lt_iff; lia). reflexivity.
  - replace (2 * (M - m * P) ?= P) with Lt by (symmetry; apply Z.compare_lt_iff; lia). reflexivity.
Qed.

Lemma rne_nearest M n :
  0 <= n -> nearest_even M (2 ^ n) (rne M n).
Proof.
  intros Hn. unfold rne, nearest_even.
  pose proof (pow2_pos n Hn) as Hp. set (P := 2 ^ n) in *.
  pose proof (Z.div_mod M P ltac:(lia)) as Hdm.
  pose proof (Z.mod_pos_bound M P Hp) as Hmod.
  set (q := M / P) in *. set (r := M mod P) in *.
  destruct (Z.compare_spec (2 * r) P) as [E | L | G].
  - destruct (Z.even q) eqn:Ev.
    + split; [nia |]. intros _. assumption.
    + split; [nia |]. intros _. rewrite Z.even_add, Ev. reflexivity.
  - split; [nia |]. intros [H | H]; exfalso; nia.
  - split; [nia |]. intros [H | H]; exfalso; nia.
Qed.

Lemma rne_0 M : rne M 0 = M.
Proof.
  unfold rne. rewrite Z.pow_0_r, Z.mod_1_r, Z.div_1_r. reflexivity.
Qed.

(** The nearest integer is unique and grows with the value. *)
Lemma nearest_even_mono x1 x2 g q1 q2 :
  0 < g -> x1 <= x2 ->
  nearest_even x1 g q1 -> nearest_even x2 g q2 -> q1 <= q2.
Proof.
  intros Hg Hx [[L1 U1] T1] [[L2 U2] T2].
  destruct (Z_le_gt_dec q1 q2) as [H | H]; trivial. exfalso.
  assert (Hq : q1 = q2 + 1) by nia.
  assert (E1 : 2 * q1 * g = 2 * x1 + g) by nia.
  assert (E2 : 2 * q2 * g = 2 * x2 - g) by nia.
  specialize (T1 (or_introl E1)). specialize (T2 (or_intror E2)).
  rewrite Hq, Z.even_add, T2 in T1. discriminate.
Qed.

Lemma nearest_even_scale x g q c :
  0 < c -> nearest_even x g q -> nearest_even (x * c) (g * c) q.
Proof.
  intros Hc [[L U] T]. split; [nia |].
  intros [H | H]; apply T; [left | right]; nia.
Qed.

Lemma nearest_even_exact q g : 0 < g -> nearest_even (q * g) g q.
Proof.
  intros Hg. split; [nia |]. intros [H | H]; exfalso; nia.
Qed.

Lemma rne_range M n d :
  0 < M -> M < 2 ^ d -> 0 <= n -> d - 53 <= n ->
  0 <= rne M n <= 2 ^ 53.
Proof.
  intros HM Hd Hn Hdn.
  destruct (rne_nearest M n Hn) as [[L U] _].
  pose proof (pow2_pos n Hn) as Hp.
  assert (Hle : 2 ^ d <= 2 ^ n * 2 ^ 53).
  { rewrite <- pow2_split by lia. destruct (Z_lt_le_dec d 0) as [Hneg | Hpos].
    - rewrite (Z.pow_neg_r 2 d Hneg). pose proof (pow2_pos (n + 53)). lia.
    - apply pow2_le. lia. }
  set (K := 2 ^ 53) in *. set (P := 2 ^ n) in *. set (q := rne M n) in *.
  split; nia.
Qed.

Lemma rne_lower M n d :
  2 ^ (d - 1) <= M -> 0 <= n -> n = d - 53 ->
  2 ^ 52 <= rne M n.
Proof.
  intros HM Hn Hdn.
  destruct (rne_nearest M n Hn) as [[L U] _].
  pose proof (pow2_pos n Hn) as Hp.
  assert (Hle : 2 ^ (d - 1) = 2 ^ n * 2 ^ 52).
  { rewrite <- pow2_split by lia. f_equal. lia. }
  set (K := 2 ^ 52) in *. set (P := 2 ^ n) in *. set (q := rne M n) in *.
  nia.
Qed.

Lemma Zdigits2_le53 q : 0 < q < 2 ^ 53 -> Zdigits2 q <= 53.
Proof.
  intros [H0 H1]. destruct (Zdigits2_bounds q H0) as [Hl _].
  destruct (Z_le_gt_dec (Zdigits2 q) 53) as [H | H]; trivial. exfalso.
  assert (2 ^ 53 <= 2 ^ (Zdigits2 q - 1)) by (apply pow2_le; lia). lia.
Qed.

Lemma shr_first M e n :
  0 <= M -> 0 <= n ->
  exists r, shr (Build_shr_record M false false) e n = (r, e + n) /\ shr_inv M n r.
Proof.
  intros HM Hn. destruct n as [| p | p]; try lia; cbn [shr].
  - exists (Build_shr_record M false false). rewrite Z.add_0_r. split; [reflexivity | apply shr_inv_init; assumption].
  - eexists. split; [reflexivity | apply shr_inv_iter; assumption].
Qed.

Lemma round_aux_eq M e :
  0 < M -> e <= fexp64 (Zdigits2 M + e) ->
  binary_round_aux prec emax false M e loc_Exact
  = pack (rne M (fexp64 (Zdigits2 M + e) - e)) (fexp64 (Zdigits2 M + e)).
Proof.
  intros HM He. unfold binary_round_aux, shr_fexp.
  fold (fexp64 (Zdigits2 M + e)). set (E := fexp64 (Zdigits2 M + e)) in *.
  cbn [shr_record_of_loc].
  destruct (shr_first M e (E - e)) as (r & Hr & Hinv); [lia | lia |].
  rewrite Hr. replace (e + (E - e)) with E by lia.
  rewrite (shr_inv_rne M (E - e) r) by (lia || assumption).
  assert (HEmin : -1074 <= E) by (unfold E; rewrite fexp64_eq; lia).
  assert (HEd : Zdigits2 M + e - 53 <= E) by (unfold E; rewrite fexp64_eq; lia).
  destruct (Zdigits2_bounds M HM) as [_ HMu].
  pose proof (rne_range M (E - e) (Zdigits2 M) HM HMu ltac:(lia) ltac:(lia)) as Hq.
  set (q := rne M (E - e)) in *.
  fold (fexp64 (Zdigits2 q + E)).
  destruct (Z.eq_dec q 0) as [Hq0 | Hq0].
  - rewrite Hq0. cbn [Zdigits2]. rewrite fexp64_eq.
    replace (Z.max (0 + E - 53) (-1074) - E) with (- (E - Z.max (E - 53) (-1074))) by lia.
    destruct (E - Z.max (E - 53) (-1074)) eqn:Hd; try lia; reflexivity.
  - destruct (Z.eq_dec q (2 ^ 53)) as [Hq1 | Hq1].
    + rewrite Hq1. change (Zdigits2 (2 ^ 53)) with 54. rewrite fexp64_eq.
      replace (Z.max (54 + E - 53) (-1074) - E) with 1 by lia. reflexivity.
    + assert (Hd : Zdigits2 q <= 53) by (apply Zdigits2_le53; lia).
      rewrite fexp64_eq.
      destruct q as [| m | m]; try lia.
      assert (Hm : Pos.eqb m 9007199254740992 = false).
      { apply Pos.eqb_neq. intros ->. apply Hq1. reflexivity. }
      unfold pack. rewrite Hm.
      replace (Z.max (Zdigits2 (Z.pos m) + E - 53) (-1074) - E)
        with (- (E - Z.max (Zdigits2 (Z.pos m) + E - 53) (-1074))) by lia.
      destruct (E - Z.max (Zdigits2 (Z.pos m) + E - 53) (-1074)) eqn:Hd'; try lia; reflexivity.
Qed.

Lemma iter_xO m d : Zpos (Pos.iter xO m d) = Zpos m * 2 ^ Zpos d.
Proof.
  induction d as [| d IH] using Pos.peano_ind.
  - cbn [Pos.iter]. rewrite Z.pow_1_r. lia.
  - rewrite Pos.iter_succ, Pos2Z.inj_succ, Z.pow_succ_r by lia.
    rewrite (Pos2Z.inj_xO (Pos.iter xO m d)), IH. lia.
Qed.

Lemma shl_align_eq m e e' :
  shl_align m e e' =
  if e' <? e then (Z.to_pos (Zpos m * 2 ^ (e - e')), e') else (m, e).
Proof.
  unfold shl_align.
  destruct (Z.ltb_spec e' e) as [H | H].
  - destruct (e' - e) as [| p | p] eqn:Hd; try lia.
    replace (e - e') with (Zpos p) by lia. rewrite <- iter_xO. reflexivity.
  - destruct (e' - e) as [| p | p] eqn:Hd; try lia; reflexivity.
Qed.

Lemma Zdigits2_shift M k :
  0 < M -> 0 <= k -> Zdigits2 (M * 2 ^ k) = Zdigits2 M + k.
Proof.
  intros HM Hk. destruct (Zdigits2_bounds M HM) as [Hl Hu].
  pose proof (Zdigits2_pos M HM) as Hd. pose proof (pow2_pos k Hk) as Hp.
  apply Zdigits2_unique; [| lia].
  replace (Zdigits2 M + k - 1) with (Zdigits2 M - 1 + k) by lia.
  rewrite !pow2_split by lia. nia.
Qed.

Lemma binary_round_eq m e :
  binary_round prec emax false m e
  = pack (round_q (Zpos m) e) (fexp64 (Zdigits2 (Zpos m) + e)).
Proof.
  unfold binary_round, round_q. fold (fexp64 (Zpos (digits2_pos m) + e)).
  change (Zpos (digits2_pos m)) with (Zdigits2 (Zpos m)).
  set (E := fexp64 (Zdigits2 (Zpos m) + e)).
  rewrite shl_align_eq.
  destruct (Z.ltb_spec E e) as [H | H].
  - replace (e <=? E) with false by (symmetry; apply Z.leb_gt; lia).
    pose proof (pow2_pos (e - E) ltac:(lia)) as Hp.
    rewrite Z2Pos.id by nia.
    assert (Hd : fexp64 (Zdigits2 (Zpos m * 2 ^ (e - E)) + E) = E).
    { rewrite Zdigits2_shift by lia.
      replace (Zdigits2 (Zpos m) + (e - E) + E) with (Zdigits2 (Zpos m) + e) by lia.
      reflexivity. }
    rewrite round_aux_eq by (rewrite ?Hd; nia || lia).
    rewrite Hd, Z.sub_diag, rne_0. reflexivity.
  - replace (e <=? E) with true by (symmetry; apply Z.leb_le; lia).
    apply round_aux_eq; [lia | assumption].
Qed.

Lemma round_aux_eq' M e :
  0 < M -> e <= fexp64 (Zdigits2 M + e) ->
  binary_round_aux prec emax false M e loc_Exact
  = pack (round_q M e) (fexp64 (Zdigits2 M + e)).
Proof.
  intros HM He. rewrite round_aux_eq by assumption. unfold round_q.
  replace (e <=? fexp64 (Zdigits2 M + e)) with true by (symmetry; apply Z.leb_le; lia).
  reflexivity.
Qed.

Section Scaled.

Variable b : Z.
Hypothesis Hb : b <= -1074.

Lemma fexp64_ge d : -1074 <= fexp64 d.
Proof. rewrite fexp64_eq. lia. Qed.

Lemma round_q_nearest M e :
  0 < M -> b <= e ->
  nearest_even (val b M e) (2 ^ (fexp64 (Zdigits2 M + e) - b)) (round_q M e).
Proof.
  intros HM He. unfold round_q, val.
  pose proof (fexp64_ge (Zdigits2 M + e)) as HE.
  set (E := fexp64 (Zdigits2 M + e)) in *.
  destruct (Z.leb_spec e E) as [H | H].
  - replace (E - b) with ((E - e) + (e - b)) by lia.
    rewrite pow2_split by lia.
    apply nearest_even_scale; [apply pow2_pos; lia | apply rne_nearest; lia].
  - replace (e - b) with ((e - E) + (E - b)) by lia.
    rewrite pow2_split, Z.mul_assoc by lia.
    apply nearest_even_exact. apply pow2_pos; lia.
Qed.

Lemma round_q_range M e : 0 < M -> 0 <= round_q M e <= 2 ^ 53.
Proof.
  intros HM. unfold round_q.
  pose proof (fexp64_eq (Zdigits2 M + e)) as HE.
  set (E := fexp64 (Zdigits2 M + e)) in *.
  destruct (Zdigits2_bounds M HM) as [Hl Hu].
  destruct (Z.leb_spec e E) as [H | H].
  - apply (rne_range M (E - e) (Zdigits2 M)); lia.
  - pose proof (pow2_pos (e - E) ltac:(lia)) as Hp.
    assert (2 ^ Zdigits2 M * 2 ^ (e - E) <= 2 ^ 53).
    { pose proof (Zdigits2_pos M HM). rewrite <- pow2_split by lia. apply pow2_le. lia. }
    nia.
Qed.

Lemma round_q_lower M e :
  0 < M -> -1074 < fexp64 (Zdigits2 M + e) -> 2 ^ 52 <= round_q M e.
Proof.
  intros HM. unfold round_q.
  pose proof (fexp64_eq (Zdigits2 M + e)) as HE.
  set (E := fexp64 (Zdigits2 M + e)) in *. intros HEm.
  destruct (Zdigits2_bounds M HM) as [Hl Hu].
  pose proof (Zdigits2_pos M HM) as Hd.
  destruct (Z.leb_spec e E) as [H | H].
  - apply (rne_lower M (E - e) (Zdigits2 M)); lia.
  - pose proof (pow2_pos (e - E) ltac:(lia)) as Hp.
    assert (2 ^ (Zdigits2 M - 1) * 2 ^ (e - E) = 2 ^ 52).
    { rewrite <- pow2_split by lia. f_equal. lia. }
    nia.
Qed.

Lemma val_digits_le M1 e1 M2 e2 :
  0 < M1 -> 0 < M2 -> b <= e1 -> b <= e2 ->
  val b M1 e1 <= val b M2 e2 ->
  Zdigits2 M1 + e1 <= Zdigits2 M2 + e2.
Proof.
  intros H1 H2 He1 He2 Hv. unfold val in Hv.
  destruct (Zdigits2_bounds M1 H1) as [Hl1 _].
  destruct (Zdigits2_bounds M2 H2) as [_ Hu2].
  pose proof (Zdigits2_pos M1 H1). pose proof (Zdigits2_pos M2 H2).
  destruct (Z_le_gt_dec (Zdigits2 M1 + e1) (Zdigits2 M2 + e2)) as [H' | H']; trivial.
  exfalso.
  assert (2 ^ Zdigits2 M2 * 2 ^ (e2 - b) <= 2 ^ (Zdigits2 M1 - 1) * 2 ^ (e1 - b)).
  { rewrite <- !pow2_split by lia. apply pow2_le. lia. }
  pose proof (pow2_pos (e1 - b) ltac:(lia)). pose proof (pow2_pos (e2 - b) ltac:(lia)).
  nia.
Qed.

(** Rounding to nearest is monotone in the exact value. *)
Lemma round_mono M1 e1 M2 e2 :
  0 < M1 -> 0 < M2 -> b <= e1 -> b <= e2 ->
  val b M1 e1 <= val b M2 e2 ->
  round_q M1 e1 * 2 ^ (fexp64 (Zdigits2 M1 + e1) - b)
  <= round_q M2 e2 * 2 ^ (fexp64 (Zdigits2 M2 + e2) - b).
Proof.
  intros H1 H2 He1 He2 Hv.
  pose proof (val_digits_le M1 e1 M2 e2 H1 H2 He1 He2 Hv) as Hd.
  pose proof (round_q_nearest M1 e1 H1 He1) as N1.
  pose proof (round_q_nearest M2 e2 H2 He2) as N2.
  pose proof (round_q_range M1 e1 H1) as R1.
  pose proof (round_q_lower M2 e2 H2) as L2.
  pose proof (fexp64_eq (Zdigits2 M1 + e1)) as HE1.
  pose proof (fexp64_eq (Zdigits2 M2 + e2)) as HE2.
  set (E1 := fexp64 (Zdigits2 M1 + e1)) in *.
  set (E2 := fexp64 (Zdigits2 M2 + e2)) in *.
  set (q1 := round_q M1 e1) in *. set (q2 := round_q M2 e2) in *.
  destruct (Z.eq_dec E1 E2) as [HE | HE].
  - rewrite HE in *. pose proof (pow2_pos (E2 - b) ltac:(lia)) as Hp.
    assert (q1 <= q2) by (apply (nearest_even_mono _ _ _ _ _ Hp Hv N1 N2)).
    nia.
  - assert (HE' : E1 < E2) by lia.
    specialize (L2 ltac:(lia)).
    pose proof (pow2_pos (E1 - b) ltac:(lia)) as Hp.
    assert (Hg : 2 * 2 ^ (E1 - b) <= 2 ^ (E2 - b)).
    { rewrite <- Z.pow_succ_r by lia. apply pow2_le. lia. }
    change (2 ^ 53) with (2 * 2 ^ 52) in R1.
    set (K := 2 ^ 52) in *. nia.
Qed.

End Scaled.

Section Scaled2.

Variable b : Z.
Hypothesis Hb : b <= -1074.

Lemma fval_pack q E :
  0 <= q <= 2 ^ 53 -> E + 1 <= 971 -> b <= E ->
  fval b (pack q E) = q * 2 ^ (E - b).
Proof.
  intros Hq HE HbE. unfold pack. destruct q as [| m | m]; try lia.
  - reflexivity.
  - destruct (Pos.eqb_spec m 9007199254740992) as [-> | Hm].
    + replace (E + 1 <=? 971) with true by (symmetry; apply Z.leb_le; lia).
      cbn [fval]. unfold val. replace (E + 1 - b) with (Z.succ (E - b)) by lia.
      rewrite Z.pow_succ_r by lia. lia.
    + replace (E <=? 971) with true by (symmetry; apply Z.leb_le; lia).
      reflexivity.
Qed.

Lemma pack_finite q E :
  0 < q <= 2 ^ 53 -> E + 1 <= 971 ->
  exists m e, pack q E = S754_finite false m e /\ E <= e <= E + 1
              /\ Zpos m < 2 ^ 53.
Proof.
  intros Hq HE. unfold pack. destruct q as [| m | m]; try lia.
  destruct (Pos.eqb_spec m 9007199254740992) as [-> | Hm].
  - replace (E + 1 <=? 971) with true by (symmetry; apply Z.leb_le; lia).
    eexists _, _. split; [reflexivity |]. split; [lia | reflexivity].
  - replace (E <=? 971) with true by (symmetry; apply Z.leb_le; lia).
    eexists _, _. split; [reflexivity |]. split; [lia |].
    assert (Zpos m <> 2 ^ 53) by (intros H; apply Hm; injection H; trivial). lia.
Qed.

Lemma round_q_pos M e :
  0 < M -> -1074 <= Zdigits2 M - 1 + e -> b <= e -> 0 < round_q M e.
Proof.
  intros HM Hd He.
  destruct (round_q_nearest b Hb M e HM He) as [[L _] _].
  pose proof (fexp64_eq (Zdigits2 M + e)) as HE.
  set (E := fexp64 (Zdigits2 M + e)) in *.
  destruct (Zdigits2_bounds M HM) as [Hl _]. pose proof (Zdigits2_pos M HM) as Hp.
  assert (2 ^ (E - b) <= 2 ^ (Zdigits2 M - 1) * 2 ^ (e - b)).
  { rewrite <- pow2_split by lia. apply pow2_le. lia. }
  pose proof (pow2_pos (E - b) ltac:(lia)). pose proof (pow2_pos (e - b) ltac:(lia)).
  unfold val in L. set (q := round_q M e) in *. nia.
Qed.

Lemma val_lt_pow M e k :
  0 < M -> b <= e -> b <= k -> val b M e < 2 ^ (k - b) -> Zdigits2 M + e <= k.
Proof.
  intros HM He Hk Hv. unfold val in Hv.
  destruct (Zdigits2_bounds M HM) as [Hl _]. pose proof (Zdigits2_pos M HM) as Hp.
  destruct (Z_le_gt_dec (Zdigits2 M + e) k) as [H | H]; trivial. exfalso.
  assert (2 ^ (k - b) <= 2 ^ (Zdigits2 M - 1) * 2 ^ (e - b)).
  { rewrite <- pow2_split by lia. apply pow2_le. lia. }
  pose proof (pow2_pos (e - b) ltac:(lia)). nia.
Qed.

Lemma bounded_facts m e :
  bounded prec emax m e = true ->
  -1074 <= e /\ Zpos m < 2 ^ 53 /\ (-1074 < e -> 2 ^ 52 <= Zpos m).
Proof.
  unfold bounded, canonical_mantissa. intros H.
  apply andb_prop in H. destruct H as [Hc _]. apply Z.eqb_eq in Hc.
  fold (fexp64 (Zpos (digits2_pos m) + e)) in Hc. rewrite fexp64_eq in Hc.
  pose proof (digits2_bounds m) as [Hl Hu].
  split; [lia |]. split.
  - assert (2 ^ Zpos (digits2_pos m) <= 2 ^ 53) by (apply pow2_le; lia). lia.
  - intros He. assert (Zpos (digits2_pos m) = 53) by lia.
    replace 52 with (Zpos (digits2_pos m) - 1) by lia. assumption.
Qed.

(** On valid numbers the comparison of the format agrees with the values. *)
Lemma SFleb_val m1 e1 m2 e2 :
  bounded prec emax m1 e1 = true -> bounded prec emax m2 e2 = true ->
  SFleb (S754_finite false m1 e1) (S754_finite false m2 e2) = true ->
  val b (Zpos m1) e1 <= val b (Zpos m2) e2.
Proof.
  intros B1 B2. apply bounded_facts in B1, B2.
  destruct B1 as (He1 & Hu1 & Hl1), B2 as (He2 & Hu2 & Hl2).
  unfold SFleb, SFcompare, val.
  destruct (Z.compare_spec e1 e2) as [E | L | G].
  - subst e2. fold (Pos.compare m1 m2).
    destruct (Pos.compare_spec m1 m2) as [E | L | G]; intros H; try discriminate.
    + subst; lia.
    + pose proof (pow2_pos (e1 - b) ltac:(lia)). nia.
  - intros _. specialize (Hl2 ltac:(lia)).
    assert (2 * 2 ^ (e1 - b) <= 2 ^ (e2 - b)).
    { rewrite <- Z.pow_succ_r by lia. apply pow2_le. lia. }
    pose proof (pow2_pos (e1 - b) ltac:(lia)).
    change (2 ^ 53) with (2 * 2 ^ 52) in Hu1. set (K := 2 ^ 52) in *. nia.
  - discriminate.
Qed.

Lemma nonneg_SFleb_fval x1 x2 :
  nonneg x1 = true -> nonneg x2 = true -> SFleb x1 x2 = true ->
  fval b x1 <= fval b x2.
Proof.
  destruct x1 as [s1 | s1 | | [|] m1 e1], x2 as [s2 | s2 | | [|] m2 e2];
    cbn [nonneg]; try discriminate; intros N1 N2 H; try discriminate H;
    cbn [fval].
  - unfold val. apply bounded_facts in N2.
    pose proof (pow2_pos (e2 - b) ltac:(lia)). nia.
  - apply SFleb_val; assumption.
Qed.

End Scaled2.

Lemma shl_align_fst m e e' :
  e' <= e -> Zpos (fst (shl_align m e e')) = Zpos m * 2 ^ (e - e').
Proof.
  intros H. rewrite shl_align_eq. destruct (Z.ltb_spec e' e) as [L | G]; cbn [fst].
  - pose proof (pow2_pos (e - e') ltac:(lia)). rewrite Z2Pos.id by nia. reflexivity.
  - replace (e - e') with 0 by lia. rewrite Z.pow_0_r. lia.
Qed.

Lemma add_eps_eq x :
  nonneg x = true ->
  SF64add x EPS
  = pack (round_q (fst (sum_of x)) (snd (sum_of x)))
         (fexp64 (Zdigits2 (fst (sum_of x)) + snd (sum_of x))).
Proof.
  destruct x as [s | s | | [|] m e]; cbn [nonneg]; try discriminate; intros _.
  - vm_compute. reflexivity.
  - unfold SF64add, SFadd, EPS. cbn [cond_Zopp sum_of fst snd].
    set (ez := Z.min e (-86)).
    rewrite <- (shl_align_fst m e ez) by lia.
    rewrite <- (shl_align_fst 7737125245533627 (-86) ez) by lia.
    cbn [Z.add binary_normalize]. rewrite binary_round_eq. reflexivity.
Qed.

Lemma mul5_eq m e :
  SF64mul (S754_finite false m e) FIVE
  = pack (round_q (Zpos m * 5629499534213120) (e - 50))
         (fexp64 (Zdigits2 (Zpos m * 5629499534213120) + (e - 50))).
Proof.
  unfold SF64mul, SFmul, FIVE. cbn [xorb].
  rewrite Pos2Z.inj_mul. change (e + -50) with (e - 50).
  apply round_aux_eq'; [lia |].
  rewrite fexp64_eq.
  assert (H : 2 ^ (53 - 1) <= Zpos m * 5629499534213120).
  { change (2 ^ (53 - 1)) with 4503599627370496. lia. }
  set (M := Zpos m * 5629499534213120) in *.
  assert (HM : 0 < M) by (change (2 ^ (53 - 1)) with 4503599627370496 in H; lia).
  destruct (Zdigits2_bounds M HM) as [_ Hu].
  destruct (Z_le_gt_dec 53 (Zdigits2 M)) as [Hd | Hd]; [lia |]. exfalso.
  assert (2 ^ Zdigits2 M <= 2 ^ (53 - 1)).
  { pose proof (Zdigits2_pos M HM). apply pow2_le. lia. }
  lia.
Qed.

Section Pack.

Variable b : Z.
Hypothesis Hb : b <= -1074.

Lemma pack_round M e :
  0 < M -> b <= e -> -1074 <= Zdigits2 M - 1 + e ->
  fexp64 (Zdigits2 M + e) + 1 <= 971 ->
  exists m' e',
    pack (round_q M e) (fexp64 (Zdigits2 M + e)) = S754_finite false m' e'
    /\ fexp64 (Zdigits2 M + e) <= e' <= fexp64 (Zdigits2 M + e) + 1
    /\ Zpos m' < 2 ^ 53
    /\ val b (Zpos m') e' = rval b M e.
Proof.
  intros HM He Hd HE.
  pose proof (round_q_range M e HM) as Hr.
  pose proof (round_q_pos b Hb M e HM Hd He) as Hp.
  pose proof (fexp64_ge (Zdigits2 M + e)) as Hge.
  destruct (pack_finite (round_q M e) (fexp64 (Zdigits2 M + e)) ltac:(lia) HE)
    as (m' & e' & Hpk & He' & Hm').
  exists m', e'. repeat split; try assumption; try lia.
  change (val b (Zpos m') e') with (fval b (S754_finite false m' e')).
  rewrite <- Hpk. apply fval_pack; lia.
Qed.

End Pack.

Section Stages.

Variable b : Z.
Hypothesis Hb : b <= -1074.

Lemma sum_of_facts x :
  nonneg x = true ->
  0 < fst (sum_of x) /\ -1074 <= snd (sum_of x) /\
  val b (fst (sum_of x)) (snd (sum_of x))
  = fval b x + val b 7737125245533627 (-86).
Proof.
  destruct x as [s | s | | [|] m e]; cbn [nonneg]; try discriminate; intros N;
    cbn [sum_of fst snd fval].
  - repeat split; lia.
  - apply bounded_facts in N. destruct N as (He & _ & _).
    set (ez := Z.min e (-86)).
    pose proof (pow2_pos (e - ez) ltac:(lia)).
    pose proof (pow2_pos (-86 - ez) ltac:(lia)).
    repeat split; try nia; try lia.
    unfold val. rewrite Z.mul_add_distr_r, <- !Z.mul_assoc, <- !pow2_split by lia.
    replace (e - ez + (ez - b)) with (e - b) by lia.
    replace (-86 - ez + (ez - b)) with (-86 - b) by lia. reflexivity.
Qed.

Lemma val_eps_lt : val b 7737125245533627 (-86) < 2 ^ (-33 - b).
Proof.
  unfold val. replace (-33 - b) with (53 + (-86 - b)) by lia.
  rewrite pow2_split by lia. pose proof (pow2_pos (-86 - b) ltac:(lia)).
  change (2 ^ 53) with 9007199254740992. nia.
Qed.

Lemma stageA x :
  nonneg x = true -> fval b x <= 2 ^ (- b) ->
  exists m e,
    SF64add x EPS = S754_finite false m e
    /\ -1074 <= e <= -51 /\ Zpos m < 2 ^ 53
    /\ val b (Zpos m) e = rval b (fst (sum_of x)) (snd (sum_of x)).
Proof.
  intros N Hx. rewrite (add_eps_eq x N).
  destruct (sum_of_facts x N) as (HM & He & Hv).
  set (M := fst (sum_of x)) in *. set (ez := snd (sum_of x)) in *.
  assert (Hd : Zdigits2 M + ez <= 1).
  { apply (val_lt_pow b M ez 1); try lia. rewrite Hv.
    pose proof val_eps_lt.
    assert (2 ^ (-33 - b) <= 2 ^ (- b)) by (apply pow2_le; lia).
    replace (1 - b) with (Z.succ (- b)) by lia. rewrite Z.pow_succ_r by lia. lia. }
  pose proof (Zdigits2_pos M HM) as Hdp.
  pose proof (fexp64_eq (Zdigits2 M + ez)) as HE.
  destruct (pack_round b Hb M ez HM ltac:(lia) ltac:(lia) ltac:(lia))
    as (m' & e' & Hpk & He' & Hm' & Hv').
  exists m', e'. repeat split; try assumption; lia.
Qed.

Lemma stageB m e :
  -1074 <= e <= -51 -> Zpos m < 2 ^ 53 ->
  exists m' e',
    SF64mul (S754_finite false m e) FIVE = S754_finite false m' e'
    /\ -1074 <= e' <= -47
    /\ val (b - 50) (Zpos m') e' = rval (b - 50) (Zpos m * 5629499534213120) (e - 50).
Proof.
  intros He Hm. rewrite mul5_eq.
  set (M := Zpos m * 5629499534213120).
  assert (HM : 0 < M) by (unfold M; lia).
  assert (Hl : 2 ^ (53 - 1) <= M).
  { change (2 ^ (53 - 1)) with 4503599627370496. unfold M. lia. }
  assert (Hu : M < 2 ^ 106).
  { change (2 ^ 106) with (2 ^ 53 * 9007199254740992). unfold M.
    set (K := 2 ^ 53) in *. nia. }
  destruct (Zdigits2_bounds M HM) as [Hdl Hdu].
  pose proof (Zdigits2_pos M HM) as Hdp.
  assert (Hd1 : 53 <= Zdigits2 M).
  { destruct (Z_le_gt_dec 53 (Zdigits2 M)) as [H | H]; trivial. exfalso.
    assert (2 ^ Zdigits2 M <= 2 ^ (53 - 1)) by (apply pow2_le; lia). lia. }
  assert (Hd2 : Zdigits2 M <= 106).
  { destruct (Z_le_gt_dec (Zdigits2 M) 106) as [H | H]; trivial. exfalso.
    assert (2 ^ 106 <= 2 ^ (Zdigits2 M - 1)) by (apply pow2_le; lia). lia. }
  pose proof (fexp64_eq (Zdigits2 M + (e - 50))) as HE.
  destruct (pack_round (b - 50) ltac:(lia) M (e - 50) HM ltac:(lia) ltac:(lia) ltac:(lia))
    as (m' & e' & Hpk & He' & Hm' & Hv').
  exists m', e'. repeat split; try assumption; lia.
Qed.

End Stages.

Lemma ceil_pos_val b m e :
  b <= e -> e < 0 ->
  Num.ceil_pos m e = - ((- val b (Zpos m) e) / 2 ^ (- b)).
Proof.
  intros Hb He. unfold Num.ceil_pos, val.
  replace (- b) with (- e + (e - b)) by lia.
  rewrite pow2_split by lia.
  rewrite <- Z.mul_opp_l.
  pose proof (pow2_pos (- e) ltac:(lia)). pose proof (pow2_pos (e - b) ltac:(lia)).
  rewrite Z.div_mul_cancel_r by lia. reflexivity.
Qed.

Lemma val_scale5 b m e :
  b <= e ->
  val (b - 50) (Zpos m * 5629499534213120) (e - 50)
  = 5629499534213120 * val b (Zpos m) e.
Proof.
  intros H. unfold val. replace (e - 50 - (b - 50)) with (e - b) by lia. lia.
Qed.

Theorem likert_exact_mono x1 x2 :
  nonneg x1 = true -> nonneg x2 = true ->
  SFleb x1 x2 = true -> SFleb x2 ONE = true ->
  exists m1 e1 m2 e2,
    likert_exact x1 = S754_finite false m1 e1
    /\ likert_exact x2 = S754_finite false m2 e2
    /\ e1 < 0 /\ e2 < 0
    /\ 1 <= Num.ceil_pos m1 e1 <= Num.ceil_pos m2 e2.
Proof.
  intros N1 N2 H12 H2.
  set (b := -1074). assert (Hb : b <= -1074) by (unfold b; lia).
  pose proof (nonneg_SFleb_fval b Hb x1 x2 N1 N2 H12) as V12.
  pose proof (nonneg_SFleb_fval b Hb x2 ONE N2 eq_refl H2) as V2.
  assert (HONE : fval b ONE = 2 ^ (- b)).
  { unfold ONE, fval, val. replace (- b) with (52 + (-52 - b)) by lia.
    rewrite pow2_split by lia. reflexivity. }
  rewrite HONE in V2.
  destruct (stageA b Hb x1 N1 ltac:(lia)) as (ma1 & ea1 & HA1 & Hea1 & Hma1 & Hva1).
  destruct (stageA b Hb x2 N2 ltac:(lia)) as (ma2 & ea2 & HA2 & Hea2 & Hma2 & Hva2).
  destruct (sum_of_facts b Hb x1 N1) as (HM1 & Hz1 & Hs1).
  destruct (sum_of_facts b Hb x2 N2) as (HM2 & Hz2 & Hs2).
  assert (VA : val b (Zpos ma1) ea1 <= val b (Zpos ma2) ea2).
  { rewrite Hva1, Hva2. apply round_mono; try assumption; try lia. }
  destruct (stageB b Hb ma1 ea1 Hea1 Hma1) as (mb1 & eb1 & HB1 & Heb1 & Hvb1).
  destruct (stageB b Hb ma2 ea2 Hea2 Hma2) as (mb2 & eb2 & HB2 & Heb2 & Hvb2).
  assert (VB : val (b - 50) (Zpos mb1) eb1 <= val (b - 50) (Zpos mb2) eb2).
  { rewrite Hvb1, Hvb2. apply round_mono; try lia.
    rewrite !val_scale5 by lia. lia. }
  exists mb1, eb1, mb2, eb2. unfold likert_exact. rewrite HA1, HA2.
  repeat split; try assumption; try lia.
  - rewrite (ceil_pos_val (b - 50)) by lia.
    assert (0 < val (b - 50) (Zpos mb1) eb1).
    { unfold val. pose proof (pow2_pos (eb1 - (b - 50)) ltac:(lia)). nia. }
    pose proof (pow2_pos (- (b - 50)) ltac:(lia)) as Hp.
    set (P := 2 ^ (- (b - 50))) in *. set (v := val (b - 50) (Zpos mb1) eb1) in *.
    assert ((- v) / P < 0) by (apply Z.div_lt_upper_bound; lia). lia.
  - rewrite !(ceil_pos_val (b - 50)) by lia.
    pose proof (pow2_pos (- (b - 50)) ltac:(lia)) as Hp.
    assert ((- val (b - 50) (Zpos mb2) eb2) / 2 ^ (- (b - 50))
            <= (- val (b - 50) (Zpos mb1) eb1) / 2 ^ (- (b - 50))).
    { apply Z.div_le_mono; lia. }
    lia.
Qed.

End RoundFacts.

(** ** Numbers that pass the range check *)

Lemma Prim2SF_min : Prim2SF TRAIT_VALUE_MIN = S754_zero false.
Proof. vm_compute. reflexivity. Qed.

Lemma Prim2SF_max : Prim2SF TRAIT_VALUE_MAX = Round.ONE.
Proof. vm_compute. reflexivity. Qed.

Lemma Prim2SF_epsilon : Prim2SF epsilon = Round.EPS.
Proof. vm_compute. reflexivity. Qed.

Lemma Prim2SF_five : Prim2SF 5 = Round.FIVE.
Proof. vm_compute. reflexivity. Qed.

Lemma in_range_SF v :
  trait_isInRange v
  = SFleb (S754_zero false) (Prim2SF v) && SFleb (Prim2SF v) Round.ONE.
Proof.
  unfold trait_isInRange, Num.geb.
  rewrite !FloatAxioms.leb_spec, Prim2SF_min, Prim2SF_max. reflexivity.
Qed.

Lemma in_range_nonneg v :
  trait_isInRange v = true ->
  Round.nonneg (Prim2SF v) = true /\ SFleb (Prim2SF v) Round.ONE = true.
Proof.
  rewrite in_range_SF. intros H. apply andb_prop in H. destruct H as [H0 H1].
  split; [| assumption].
  pose proof (Prim2SF_valid v) as Hv.
  destruct (Prim2SF v) as [s | [|] | | [|] m e]; try discriminate; trivial.
Qed.

Lemma product_SF v :
  Prim2SF ((v + epsilon) * 5)%float = Round.likert_exact (Prim2SF v).
Proof.
  rewrite FloatAxioms.mul_spec, FloatAxioms.add_spec, Prim2SF_epsilon, Prim2SF_five. reflexivity.
Qed.

Lemma Math_ceil_pos y m e :
  Prim2SF y = S754_finite false m e -> (e < 0)%Z ->
  Num.Math_ceil y = Num.of_Z (Num.ceil_pos m e).
Proof.
  intros H He. unfold Num.Math_ceil. rewrite H.
  replace (0 <=? e)%Z with false by (symmetry; apply Z.leb_gt; assumption).
  reflexivity.
Qed.

Lemma likert_exact_one :
  Round.likert_exact Round.ONE = S754_finite false 5629499534776070 (-50).
Proof. vm_compute. reflexivity. Qed.

(** In range, the product is a positive number below 6 with a negative
    exponent, and its ceiling grows with the value. *)
Lemma ceiling_facts u v :
  trait_isInRange u = true -> trait_isInRange v = true ->
  (u <=? v)%float = true ->
  (1 <= ceiling u <= ceiling v)%Z /\ (ceiling v <= 6)%Z
  /\ Num.Math_ceil ((u + epsilon) * 5)%float = Num.of_Z (ceiling u)
  /\ Num.Math_ceil ((v + epsilon) * 5)%float = Num.of_Z (ceiling v).
Proof.
  intros Hu Hv Huv.
  destruct (in_range_nonneg u Hu) as [Nu _].
  destruct (in_range_nonneg v Hv) as [Nv Lv].
  rewrite FloatAxioms.leb_spec in Huv.
  destruct (RoundFacts.likert_exact_mono _ _ Nu Nv Huv Lv)
    as (m1 & e1 & m2 & e2 & E1 & E2 & He1 & He2 & Hk).
  destruct (RoundFacts.likert_exact_mono _ _ Nv (eq_refl : Round.nonneg Round.ONE = true)
              Lv (eq_refl : SFleb Round.ONE Round.ONE = true))
    as (m2' & e2' & m3 & e3 & E2' & E3 & _ & _ & Hk').
  rewrite E2 in E2'. injection E2' as <- <-.
  rewrite likert_exact_one in E3. injection E3 as <- <-.
  change (Num.ceil_pos 5629499534776070 (-50)) with 6%Z in Hk'.
  unfold ceiling. rewrite !product_SF, E1, E2.
  rewrite (Math_ceil_pos _ m1 e1), (Math_ceil_pos _ m2 e2)
    by (rewrite ?product_SF; assumption).
  repeat split; lia.
Qed.

Lemma ceiling_range v :
  trait_isInRange v = true ->
  (1 <= ceiling v <= 6)%Z
  /\ calculateLikertScore v = Normal (score_of_ceiling (ceiling v)).
Proof.
  intros Hv.
  assert (Hvv : (v <=? v)%float = true).
  { rewrite FloatAxioms.leb_spec. destruct (in_range_nonneg v Hv) as [N _].
    destruct (Prim2SF v) as [s | s | | [|] m e]; try discriminate; trivial.
    unfold SFleb, SFcompare. rewrite Z.compare_refl, Pos.compare_cont_refl.
    reflexivity. }
  destruct (ceiling_facts v v Hv Hv Hvv) as (H1 & H2 & H3 & _).
  split; [lia |].
  unfold calculateLikertScore. rewrite Hv. cbn [negb]. cbv zeta.
  rewrite H3. reflexivity.
Qed.

Lemma score_of_ceiling_eq k :
  (1 <= k <= 6)%Z -> score_of_ceiling k = Num.of_Z (Z.min k 5).
Proof.
  intros H.
  assert (C : (k = 1 \/ k = 2 \/ k = 3 \/ k = 4 \/ k = 5 \/ k = 6)%Z) by lia.
  destruct C as [-> | [-> | [-> | [-> | [-> | ->]]]]]; vm_compute; reflexivity.
Qed.

Lemma level_of_Z k : (1 <= k <= 5)%Z -> is_level (Num.of_Z k).
Proof.
  intros H. unfold is_level.
  assert (C : (k = 1 \/ k = 2 \/ k = 3 \/ k = 4 \/ k = 5)%Z) by lia.
  destruct C as [-> | [-> | [-> | [-> | ->]]]]; vm_compute; tauto.
Qed.

Lemma of_Z_leb k1 k2 :
  (1 <= k1 <= k2)%Z -> (k2 <= 5)%Z -> (Num.of_Z k1 <=? Num.of_Z k2)%float = true.
Proof.
  intros H1 H2.
  assert (C1 : (k1 = 1 \/ k1 = 2 \/ k1 = 3 \/ k1 = 4 \/ k1 = 5)%Z) by lia.
  assert (C2 : (k2 = 1 \/ k2 = 2 \/ k2 = 3 \/ k2 = 4 \/ k2 = 5)%Z) by lia.
  destruct C1 as [-> | [-> | [-> | [-> | ->]]]];
    destruct C2 as [-> | [-> | [-> | [-> | ->]]]]; try lia; vm_compute; reflexivity.
Qed.

Lemma SFcompare_refl x :
  x <> S754_nan -> SFcompare x x = Some Eq.
Proof.
  destruct x as [s | [|] | | [|] m e]; intros H; try reflexivity;
    try (exfalso; apply H; reflexivity);
    unfold SFcompare; rewrite Z.compare_refl, Pos.compare_cont_refl; reflexivity.
Qed.

Lemma nonneg_not_nan x : Round.nonneg x = true -> x <> S754_nan.
Proof. intros H ->. discriminate. Qed.

Lemma SFcompare_antisym_pos m1 e1 m2 e2 :
  SFcompare (S754_finite false m2 e2) (S754_finite false m1 e1)
  = option_map CompOpp (SFcompare (S754_finite false m1 e1) (S754_finite false m2 e2)).
Proof.
  unfold SFcompare, option_map. rewrite (Z.compare_antisym e1 e2).
  destruct (e1 ?= e2)%Z; cbn [CompOpp]; trivial.
  rewrite Pos.compare_cont_antisym. reflexivity.
Qed.

Lemma SFcompare_pos_some m1 e1 m2 e2 :
  exists c,
    SFcompare (S754_finite false m1 e1) (S754_finite false m2 e2) = Some c.
Proof. unfold SFcompare. eexists. reflexivity. Qed.

(** * Further properties of the class *)

(** ** The range check *)

(** X1: a number that passes [trait_isInRange] is never NaN and never an
    infinity. *)
Theorem in_range_is_finite (v : float) :
  trait_isInRange v = true -> is_nan v = false /\ is_infinity v = false.
Proof.
  intros H. destruct (in_range_nonneg v H) as [N _].
  unfold is_nan, is_infinity. rewrite !FloatAxioms.eqb_spec, FloatAxioms.abs_spec.
  replace (Prim2SF infinity) with (S754_infinity false) by (vm_compute; reflexivity).
  unfold SFeqb. pose proof (SFcompare_refl _ (nonneg_not_nan _ N)) as R. rewrite R.
  split; [reflexivity |].
  destruct (Prim2SF v) as [s | s | | [|] m e]; try discriminate; reflexivity.
Qed.

Lemma in_range_is_finite_witness :
  trait_isInRange 0.25 = true /\ is_nan 0.25 = false /\ is_infinity 0.25 = false.
Proof.
  split; [reflexivity | apply (in_range_is_finite 0.25); reflexivity].
Defined.

(** X2: [trait_isInRange] rejects exactly the numbers below the minimum,
    the numbers above the maximum, and NaN. *)
Theorem out_of_range_iff (v : float) :
  trait_isInRange v = false <->
  (v <? TRAIT_VALUE_MIN)%float = true
  \/ (TRAIT_VALUE_MAX <? v)%float = true
  \/ is_nan v = true.
Proof.
  rewrite in_range_SF. unfold is_nan.
  rewrite !FloatAxioms.ltb_spec, FloatAxioms.eqb_spec, Prim2SF_min, Prim2SF_max.
  unfold SFeqb.
  destruct (Prim2SF v) as [s | [|] | | [|] m e].
  - split; [discriminate | intros [H | [H | H]]; discriminate].
  - split; [intros _; left; reflexivity | reflexivity].
  - split; [intros _; right; left; reflexivity | reflexivity].
  - split; [intros _; right; right; reflexivity | reflexivity].
  - split; [intros _; left; reflexivity | reflexivity].
  - rewrite SFcompare_refl by discriminate.
    unfold SFleb, SFltb, Round.ONE.
    rewrite (SFcompare_antisym_pos m e 4503599627370496 (-52)).
    change (SFcompare (S754_zero false) (S754_finite false m e)) with (Some Lt).
    change (SFcompare (S754_finite false m e) (S754_zero false)) with (Some Gt).
    cbn [negb andb].
    destruct (SFcompare_pos_some m e 4503599627370496 (-52)) as [c ->].
    destruct c; cbn [option_map CompOpp];
      (split; [discriminate || (intros _; right; left; reflexivity)
              | intros [H | [H | H]]; discriminate || reflexivity]).
Qed.

(** ** Construction *)

Lemma valid_fields this :
  valid this <->
  trait_isInRange (_openness this) = true
  /\ trait_isInRange (_conscientiousness this) = true
  /\ trait_isInRange (_extraversion this) = true
  /\ trait_isInRange (_agreeableness this) = true
  /\ trait_isInRange (_neuroticism this) = true.
Proof.
  split.
  - intros H. repeat split.
    + apply (H openness).
    + apply (H conscientiousness).
    + apply (H extraversion).
    + apply (H agreeableness).
    + apply (H neuroticism).
  - intros (Ho & Hc & He & Ha & Hn) [| | | |]; assumption.
Qed.

(** X3: [new FFM] completes normally exactly when all five arguments pass
    the range check, the object then holds the arguments unchanged; and
    the only message it ever throws is the generic range message. *)
Theorem constructor_iff (o c e a n : float) (this : FFM) :
  (constructor o c e a n = Normal this <->
   trait_isInRange o = true /\ trait_isInRange c = true
   /\ trait_isInRange e = true /\ trait_isInRange a = true
   /\ trait_isInRange n = true /\ this = mkFFM o c e a n)
  /\ (forall msg, constructor o c e a n = Throw msg -> msg = range_message).
Proof.
  unfold constructor.
  destruct (trait_isInRange o), (trait_isInRange c), (trait_isInRange e),
    (trait_isInRange a), (trait_isInRange n); cbn [negb orb];
    (split; [split; [intros H; try discriminate H; injection H as <-; tauto
                    | intros (? & ? & ? & ? & ? & ->); (reflexivity || discriminate)]
            | intros msg H; try discriminate H; injection H as <-; reflexivity]).
Qed.

Lemma constructor_valid this :
  valid this ->
  constructor (_openness this) (_conscientiousness this) (_extraversion this)
              (_agreeableness this) (_neuroticism this) = Normal this.
Proof.
  intros H. apply valid_fields in H. destruct H as (Ho & Hc & He & Ha & Hn).
  unfold constructor. rewrite Ho, Hc, He, Ha, Hn. destruct this; reflexivity.
Qed.

(** X4: the average preset always completes, every field of the object is
    the average constant, and every trait of it is at Likert level 3. *)
Theorem createAveragePersonality_ok :
  exists this,
    createAveragePersonality = Normal this
    /\ (forall t, getter t this = TRAIT_VALUE_AVG)
    /\ (forall t, level t this = Normal 3%float).
Proof.
  eexists. split; [vm_compute; reflexivity |].
  split; intros [| | | |]; vm_compute; reflexivity.
Qed.

(** ** Setters *)


(** X5: an accepted assignment completes normally, is read back by the
    getter of the same trait, and leaves the other four getters as they
    were. *)
Theorem setter_accepts (t : trait) (v : float) (this : FFM) :
  trait_isInRange v = true ->
  fst (setter t v this) = Normal tt
  /\ getter t (snd (setter t v this)) = v
  /\ (forall t', t' <> t ->
        getter t' (snd (setter t v this)) = getter t' this).
Proof.
  intros H.
  destruct t; unfold setter, set_openness, set_conscientiousness,
    set_extraversion, set_agreeableness, set_neuroticism; rewrite H;
    cbn [negb fst snd]; (split; [reflexivity |]); (split; [reflexivity |]);
    intros [| | | |] Hne; try reflexivity; exfalso; apply Hne; reflexivity.
Qed.

Lemma setter_accepts_witness :
  trait_isInRange 0.75 = true
  /\ getter extraversion
       (snd (setter extraversion 0.75 (mkFFM 0.1 0.2 0.3 0.4 0.5)))
     = 0.75%float.
Proof.
  split; [reflexivity |].
  apply (setter_accepts extraversion 0.75 (mkFFM 0.1 0.2 0.3 0.4 0.5)).
  reflexivity.
Defined.

(** X6: a rejected assignment throws the message that names the trait and
    leaves the whole object as it was. *)
Theorem setter_rejects (t : trait) (v : float) (this : FFM) :
  trait_isInRange v = false ->
  setter t v this
  = (Throw (trait_name t ++ " value must be between 0 and 1.0 inclusive."),
     this).
Proof.
  intros H.
  destruct t; unfold setter, set_openness, set_conscientiousness,
    set_extraversion, set_agreeableness, set_neuroticism; rewrite H;
    reflexivity.
Qed.

Lemma setter_rejects_witness :
  trait_isInRange 1.5 = false
  /\ setter agreeableness 1.5 (mkFFM 0.1 0.2 0.3 0.4 0.5)
     = (Throw "Agreeableness value must be between 0 and 1.0 inclusive.",
        mkFFM 0.1 0.2 0.3 0.4 0.5).
Proof.
  split; [reflexivity |].
  apply (setter_rejects agreeableness 1.5 (mkFFM 0.1 0.2 0.3 0.4 0.5)).
  reflexivity.
Defined.

(** X7: assignments to two different traits commute, whether each of them
    is accepted or rejected. *)
Theorem setter_commute (t1 t2 : trait) (v1 v2 : float) (this : FFM) :
  t1 <> t2 ->
  snd (setter t2 v2 (snd (setter t1 v1 this)))
  = snd (setter t1 v1 (snd (setter t2 v2 this))).
Proof.
  intros Hne.
  destruct t1, t2; try (exfalso; apply Hne; reflexivity);
    unfold setter, set_openness, set_conscientiousness, set_extraversion,
      set_agreeableness, set_neuroticism;
    destruct (trait_isInRange v1), (trait_isInRange v2); reflexivity.
Qed.

Lemma setter_commute_witness :
  openness <> neuroticism
  /\ snd (setter neuroticism 0.9 (snd (setter openness 2 (mkFFM 0.1 0.2 0.3 0.4 0.5))))
     = snd (setter openness 2 (snd (setter neuroticism 0.9 (mkFFM 0.1 0.2 0.3 0.4 0.5)))).
Proof.
  split; [discriminate |].
  apply (setter_commute openness neuroticism 2 0.9 (mkFFM 0.1 0.2 0.3 0.4 0.5)).
  discriminate.
Defined.

(** X8: the last accepted assignment to a trait wins: what an earlier call
    on the same trait did, accepted or not, is overwritten. *)
Theorem setter_overwrite (t : trait) (v1 v2 : float) (this : FFM) :
  trait_isInRange v2 = true ->
  snd (setter t v2 (snd (setter t v1 this))) = snd (setter t v2 this).
Proof.
  intros H.
  destruct t; unfold setter, set_openness, set_conscientiousness,
    set_extraversion, set_agreeableness, set_neuroticism; rewrite H;
    destruct (trait_isInRange v1); reflexivity.
Qed.

Lemma setter_overwrite_witness :
  trait_isInRange 0.6 = true
  /\ snd (setter conscientiousness 0.6
            (snd (setter conscientiousness 0.9 (mkFFM 0.1 0.2 0.3 0.4 0.5))))
     = snd (setter conscientiousness 0.6 (mkFFM 0.1 0.2 0.3 0.4 0.5)).
Proof.
  split; [reflexivity |].
  apply (setter_overwrite conscientiousness 0.9 0.6 (mkFFM 0.1 0.2 0.3 0.4 0.5)).
  reflexivity.
Defined.

(** ** Objects a caller can hold *)

Lemma setter_valid t v this : valid this -> valid (snd (setter t v this)).
Proof.
  intros H. destruct (trait_isInRange v) eqn:Hv.
  - destruct (setter_accepts t v this Hv) as (_ & Hg & Hf).
    intros t'. destruct t, t'; try (rewrite Hg; exact Hv);
      (rewrite Hf by discriminate; apply H).
  - rewrite (setter_rejects t v this Hv). exact H.
Qed.

(** X9: the objects built by the constructor or the preset and changed
    through setters are exactly the objects whose five fields pass the
    range check: validity is an invariant, and every valid state is
    reachable. *)
Theorem reachable_iff_valid (this : FFM) : reachable this <-> valid this.
Proof.
  split.
  - induction 1 as [o c e a n this H | this H | t v this _ IH].
    + apply (proj1 (constructor_iff o c e a n this)) in H.
      destruct H as (Ho & Hc & He & Ha & Hn & ->).
      apply valid_fields. cbn. tauto.
    + apply (proj1 (constructor_iff _ _ _ _ _ this)) in H.
      destruct H as (Ho & Hc & He & Ha & Hn & ->).
      apply valid_fields. cbn. tauto.
    + apply setter_valid. assumption.
  - intros H. eapply reach_new. apply constructor_valid. assumption.
Qed.

(** X10: a reachable object never holds NaN or an infinity, and the
    constructor applied to what its getters return rebuilds it. *)
Theorem reachable_rebuild (this : FFM) :
  reachable this ->
  (forall t, is_nan (getter t this) = false
             /\ is_infinity (getter t this) = false)
  /\ constructor (get_openness this) (get_conscientiousness this)
                 (get_extraversion this) (get_agreeableness this)
                 (get_neuroticism this) = Normal this.
Proof.
  intros H. apply reachable_iff_valid in H. split.
  - intros t. apply in_range_is_finite. apply H.
  - apply constructor_valid. assumption.
Qed.

Lemma reachable_rebuild_witness :
  reachable (snd (setter openness 0.3 (snd (setter neuroticism 7 (mkFFM 0.5 0.5 0.5 0.5 0.5)))))
  /\ constructor 0.3 0.5 0.5 0.5 0.5
     = Normal (mkFFM 0.3 0.5 0.5 0.5 0.5).
Proof.
  assert (R : reachable (snd (setter openness 0.3 (snd (setter neuroticism 7 (mkFFM 0.5 0.5 0.5 0.5 0.5)))))).
  { apply reach_set. apply reach_set. apply reach_average. reflexivity. }
  split; [exact R |].
  exact (proj2 (reachable_rebuild _ R)).
Defined.

(** ** Likert conversion *)

Lemma likert_in_range v :
  trait_isInRange v = true ->
  calculateLikertScore v = Normal (Num.of_Z (Z.min (ceiling v) 5))
  /\ (1 <= Z.min (ceiling v) 5 <= 5)%Z.
Proof.
  intros H. destruct (ceiling_range v H) as [Hk Hs].
  rewrite Hs, score_of_ceiling_eq by assumption. split; [reflexivity | lia].
Qed.

Lemma likert_out_of_range v :
  trait_isInRange v = false -> calculateLikertScore v = Throw range_message.
Proof. intros H. unfold calculateLikertScore. rewrite H. reflexivity. Qed.

Lemma of_Z_inj k1 k2 :
  (1 <= k1 <= 5)%Z -> (1 <= k2 <= 5)%Z ->
  Num.of_Z k1 = Num.of_Z k2 -> k1 = k2.
Proof.
  intros H1 H2 H.
  assert (C1 : (k1 = 1 \/ k1 = 2 \/ k1 = 3 \/ k1 = 4 \/ k1 = 5)%Z) by lia.
  assert (C2 : (k2 = 1 \/ k2 = 2 \/ k2 = 3 \/ k2 = 4 \/ k2 = 5)%Z) by lia.
  apply (f_equal Prim2SF) in H.
  destruct C1 as [-> | [-> | [-> | [-> | ->]]]];
    destruct C2 as [-> | [-> | [-> | [-> | ->]]]]; try reflexivity;
    vm_compute in H; discriminate H.
Qed.

(** X11: the conversion has two outcomes only: in range it returns one of
    the numbers 1, 2, 3, 4, 5; out of range it throws the generic range
    message. *)
Theorem likert_outcome (v : float) :
  (trait_isInRange v = true
   /\ exists s, calculateLikertScore v = Normal s /\ is_level s)
  \/ (trait_isInRange v = false
      /\ calculateLikertScore v = Throw range_message).
Proof.
  destruct (trait_isInRange v) eqn:H.
  - left. split; [reflexivity |].
    destruct (likert_in_range v H) as [Hs Hk].
    eexists. split; [exact Hs | apply level_of_Z; assumption].
  - right. split; [reflexivity | apply likert_out_of_range; assumption].
Qed.

(** X12: the conversion is monotone: of two numbers in range, the larger
    one never gets the smaller score. *)
Theorem likert_monotone (u v : float) :
  trait_isInRange u = true -> trait_isInRange v = true ->
  (u <=? v)%float = true ->
  exists su sv,
    calculateLikertScore u = Normal su
    /\ calculateLikertScore v = Normal sv
    /\ (su <=? sv)%float = true.
Proof.
  intros Hu Hv Huv.
  destruct (likert_in_range u Hu) as [Su Ku].
  destruct (likert_in_range v Hv) as [Sv Kv].
  destruct (ceiling_facts u v Hu Hv Huv) as (Hk & _).
  eexists _, _. split; [exact Su |]. split; [exact Sv |].
  apply of_Z_leb; lia.
Qed.

Lemma likert_monotone_witness :
  trait_isInRange 0.35 = true /\ trait_isInRange 0.82 = true
  /\ (0.35 <=? 0.82)%float = true
  /\ exists su sv,
       calculateLikertScore 0.35 = Normal su
       /\ calculateLikertScore 0.82 = Normal sv
       /\ (su <=? sv)%float = true.
Proof.
  split; [reflexivity |]. split; [reflexivity |]. split; [reflexivity |].
  apply (likert_monotone 0.35 0.82); reflexivity.
Defined.

(** Between two numbers with the same score, every number has that score. *)
Lemma likert_between lo hi v s :
  trait_isInRange lo = true -> trait_isInRange hi = true ->
  (lo <=? v)%float = true -> (v <=? hi)%float = true ->
  trait_isInRange v = true ->
  calculateLikertScore lo = Normal s -> calculateLikertScore hi = Normal s ->
  calculateLikertScore v = Normal s.
Proof.
  intros Hlo Hhi H1 H2 Hv Slo Shi.
  destruct (likert_in_range lo Hlo) as [Slo' Klo].
  destruct (likert_in_range hi Hhi) as [Shi' Khi].
  destruct (likert_in_range v Hv) as [Sv Kv].
  destruct (ceiling_facts lo v Hlo Hv H1) as (Hk1 & _).
  destruct (ceiling_facts v hi Hv Hhi H2) as (Hk2 & _).
  rewrite Slo' in Slo. rewrite Shi' in Shi.
  injection Slo as Slo. injection Shi as Shi.
  assert (E : Z.min (ceiling lo) 5 = Z.min (ceiling hi) 5)
    by (apply of_Z_inj; try assumption; congruence).
  rewrite Sv, <- Slo. do 2 f_equal. lia.
Qed.

Lemma SF_adjacent x ma mb e :
  mb = Pos.succ ma -> Round.nonneg x = true ->
  SFleb x (S754_finite false ma e) = true
  \/ SFleb (S754_finite false mb e) x = true.
Proof.
  intros -> N. destruct x as [s | s | | [|] m ex]; try discriminate N.
  - left. reflexivity.
  - unfold SFleb, SFcompare. rewrite (Z.compare_antisym ex e).
    destruct (ex ?= e)%Z; cbn [CompOpp].
    + fold (Pos.compare m ma). fold (Pos.compare (Pos.succ ma) m).
      destruct (Pos.compare_spec m ma) as [E | L | G].
      * left; reflexivity.
      * left; reflexivity.
      * right. destruct (Pos.compare_spec (Pos.succ ma) m) as [E' | L' | G'];
          try reflexivity. exfalso. lia.
    + left; reflexivity.
    + right; reflexivity.
Qed.

Lemma adjacent_cover a b ma mb e v :
  Prim2SF a = S754_finite false ma e -> Prim2SF b = S754_finite false mb e ->
  mb = Pos.succ ma -> trait_isInRange v = true ->
  (v <=? a)%float = true \/ (b <=? v)%float = true.
Proof.
  intros Ha Hb Hm Hv. rewrite !FloatAxioms.leb_spec, Ha, Hb.
  apply SF_adjacent; [assumption | apply in_range_nonneg; assumption].
Qed.

(** X13: the five buckets of the conversion.  Every number in range lies
    in one of five intervals, and the interval decides the score.  A
    bucket ends just below a multiple of 0.2 less the epsilon and the next
    one starts at the following binary64 number, so 0.2, 0.4, 0.6 and 0.8
    themselves fall in the upper bucket. *)
Theorem likert_buckets (v : float) :
  trait_isInRange v = true ->
  ((v <=? 0.1999999999)%float = true
   /\ calculateLikertScore v = Normal 1%float)
  \/ ((0.19999999990000003 <=? v)%float = true
      /\ (v <=? 0.39999999990000001)%float = true
      /\ calculateLikertScore v = Normal 2%float)
  \/ ((0.39999999990000007 <=? v)%float = true
      /\ (v <=? 0.59999999989999997)%float = true
      /\ calculateLikertScore v = Normal 3%float)
  \/ ((0.59999999990000008 <=? v)%float = true
      /\ (v <=? 0.79999999990000004)%float = true
      /\ calculateLikertScore v = Normal 4%float)
  \/ ((0.79999999990000015 <=? v)%float = true
      /\ calculateLikertScore v = Normal 5%float).
Proof.
  intros Hv.
  assert (H0 : (0 <=? v)%float = true /\ (v <=? 1)%float = true).
  { unfold trait_isInRange, Num.geb in Hv. apply andb_prop in Hv. exact Hv. }
  destruct H0 as [H0 H1].
  assert (B : forall lo hi s,
             trait_isInRange lo = true -> trait_isInRange hi = true ->
             calculateLikertScore lo = Normal s ->
             calculateLikertScore hi = Normal s ->
             (lo <=? v)%float = true -> (v <=? hi)%float = true ->
             calculateLikertScore v = Normal s).
  { intros lo hi s Hlo Hhi Slo Shi L1 L2.
    apply (likert_between lo hi v s); assumption. }
  pose proof (adjacent_cover 0.1999999999 0.19999999990000003
                7205759400189914 7205759400189915 (-55) v
                ltac:(vm_compute; reflexivity) ltac:(vm_compute; reflexivity)
                eq_refl Hv) as C1.
  pose proof (adjacent_cover 0.39999999990000001 0.39999999990000007
                7205759401991354 7205759401991355 (-54) v
                ltac:(vm_compute; reflexivity) ltac:(vm_compute; reflexivity)
                eq_refl Hv) as C2.
  pose proof (adjacent_cover 0.59999999989999997 0.59999999990000008
                5404319551943875 5404319551943876 (-53) v
                ltac:(vm_compute; reflexivity) ltac:(vm_compute; reflexivity)
                eq_refl Hv) as C3.
  pose proof (adjacent_cover 0.79999999990000004 0.79999999990000015
                7205759402892074 7205759402892075 (-53) v
                ltac:(vm_compute; reflexivity) ltac:(vm_compute; reflexivity)
                eq_refl Hv) as C4.
  pose proof (B 0%float 0.1999999999%float 1%float
                ltac:(vm_compute; reflexivity) ltac:(vm_compute; reflexivity)
                ltac:(vm_compute; reflexivity) ltac:(vm_compute; reflexivity)
                H0) as B1.
  pose proof (B 0.19999999990000003%float 0.39999999990000001%float 2%float
                ltac:(vm_compute; reflexivity) ltac:(vm_compute; reflexivity)
                ltac:(vm_compute; reflexivity) ltac:(vm_compute; reflexivity))
    as B2.
  pose proof (B 0.39999999990000007%float 0.59999999989999997%float 3%float
                ltac:(vm_compute; reflexivity) ltac:(vm_compute; reflexivity)
                ltac:(vm_compute; reflexivity) ltac:(vm_compute; reflexivity))
    as B3.
  pose proof (B 0.59999999990000008%float 0.79999999990000004%float 4%float
                ltac:(vm_compute; reflexivity) ltac:(vm_compute; reflexivity)
                ltac:(vm_compute; reflexivity) ltac:(vm_compute; reflexivity))
    as B4.
  pose proof (fun L => B 0.79999999990000015%float 1%float 5%float
                ltac:(vm_compute; reflexivity) ltac:(vm_compute; reflexivity)
                ltac:(vm_compute; reflexivity) ltac:(vm_compute; reflexivity)
                L H1) as B5.
  clear B.
  destruct C1 as [C1 | C1]; [left; split; [exact C1 | exact (B1 C1)] | right].
  destruct C2 as [C2 | C2];
    [left; split; [exact C1 | split; [exact C2 | exact (B2 C1 C2)]] | right].
  destruct C3 as [C3 | C3];
    [left; split; [exact C2 | split; [exact C3 | exact (B3 C2 C3)]] | right].
  destruct C4 as [C4 | C4];
    [left; split; [exact C3 | split; [exact C4 | exact (B4 C3 C4)]] | right].
  split; [exact C4 | exact (B5 C4)].
Qed.

Lemma likert_buckets_witness :
  trait_isInRange 0.2 = true
  /\ (((0.2 <=? 0.1999999999)%float = true
       /\ calculateLikertScore 0.2 = Normal 1%float)
      \/ ((0.19999999990000003 <=? 0.2)%float = true
          /\ (0.2 <=? 0.39999999990000001)%float = true
          /\ calculateLikertScore 0.2 = Normal 2%float)
      \/ ((0.39999999990000007 <=? 0.2)%float = true
          /\ (0.2 <=? 0.59999999989999997)%float = true
          /\ calculateLikertScore 0.2 = Normal 3%float)
      \/ ((0.59999999990000008 <=? 0.2)%float = true
          /\ (0.2 <=? 0.79999999990000004)%float = true
          /\ calculateLikertScore 0.2 = Normal 4%float)
      \/ ((0.79999999990000015 <=? 0.2)%float = true
          /\ calculateLikertScore 0.2 = Normal 5%float)).
Proof.
  split; [reflexivity | apply (likert_buckets 0.2); reflexivity].
Defined.

(** ** The three views *)

Lemma describe_step_level descriptions trait value s :
  calculateLikertScore value = Normal s -> is_level s ->
  describe_step descriptions (trait, value)
  = Normal (assign descriptions trait (adverb s ++ " " ++ trait)).
Proof.
  intros Hs Hl. unfold describe_step. rewrite Hs. cbn [bind].
  destruct Hl as [-> | [-> | [-> | [-> | ->]]]]; reflexivity.
Qed.

Lemma describe_step_throw descriptions trait value msg :
  calculateLikertScore value = Throw msg ->
  describe_step descriptions (trait, value) = Throw msg.
Proof. intros Hs. unfold describe_step. rewrite Hs. reflexivity. Qed.

(** Case analysis on one conversion: a level, or the range message. *)
Ltac convert v s H L :=
  destruct (likert_outcome v) as [[_ (s & H & L)] | [_ H]].

Lemma levels_outcome this :
  (valid this
   /\ exists so sc se sa sn,
        levels this = Normal (so, sc, se, sa, sn)
        /\ calculateLikertScore (_openness this) = Normal so
        /\ calculateLikertScore (_conscientiousness this) = Normal sc
        /\ calculateLikertScore (_extraversion this) = Normal se
        /\ calculateLikertScore (_agreeableness this) = Normal sa
        /\ calculateLikertScore (_neuroticism this) = Normal sn
        /\ is_level so /\ is_level sc /\ is_level se /\ is_level sa
        /\ is_level sn)
  \/ (~ valid this /\ levels this = Throw range_message).
Proof.
  unfold levels.
  destruct (likert_outcome (_openness this)) as [[Ro (so & Ho & Lo)] | [Ro Ho]];
    rewrite Ho; cbn [bind];
    [| right; split; [intros V; apply valid_fields in V; destruct V as (V & _);
                      rewrite V in Ro; discriminate | reflexivity]].
  destruct (likert_outcome (_conscientiousness this))
    as [[Rc (sc & Hc & Lc)] | [Rc Hc]]; rewrite Hc; cbn [bind];
    [| right; split; [intros V; apply valid_fields in V;
                      destruct V as (_ & V & _);
                      rewrite V in Rc; discriminate | reflexivity]].
  destruct (likert_outcome (_extraversion this))
    as [[Re (se & He & Le)] | [Re He]]; rewrite He; cbn [bind];
    [| right; split; [intros V; apply valid_fields in V;
                      destruct V as (_ & _ & V & _);
                      rewrite V in Re; discriminate | reflexivity]].
  destruct (likert_outcome (_agreeableness this))
    as [[Ra (sa & Ha & La)] | [Ra Ha]]; rewrite Ha; cbn [bind];
    [| right; split; [intros V; apply valid_fields in V;
                      destruct V as (_ & _ & _ & V & _);
                      rewrite V in Ra; discriminate | reflexivity]].
  destruct (likert_outcome (_neuroticism this))
    as [[Rn (sn & Hn & Ln)] | [Rn Hn]]; rewrite Hn; cbn [bind];
    [| right; split; [intros V; apply valid_fields in V;
                      destruct V as (_ & _ & _ & _ & V);
                      rewrite V in Rn; discriminate | reflexivity]].
  left. split; [apply valid_fields; tauto |].
  exists so, sc, se, sa, sn. tauto.
Qed.

(** The sentence for five levels. *)
Lemma describe_levels this :
  describe this
  = (l <- levels this ;;
     let '(so, sc, se, sa, sn) := l in
     Normal ("According to the Five Factor Model this personality is: "
             ++ (adverb so ++ " open") ++ ", "
             ++ (adverb sc ++ " conscientious") ++ ", "
             ++ (adverb se ++ " extraverted") ++ ", "
             ++ (adverb sa ++ " agreeable") ++ ", and "
             ++ (adverb sn ++ " neurotic") ++ ".")).
Proof.
  unfold describe, levels. cbn [for_in].
  convert (_openness this) so Ho Lo;
    [rewrite (describe_step_level _ _ _ so Ho Lo), Ho
    | rewrite (describe_step_throw _ _ _ _ Ho), Ho; reflexivity].
  cbn [bind].
  convert (_conscientiousness this) sc Hc Lc;
    [rewrite (describe_step_level _ _ _ sc Hc Lc), Hc
    | rewrite (describe_step_throw _ _ _ _ Hc), Hc; reflexivity].
  cbn [bind].
  convert (_extraversion this) se He Le;
    [rewrite (describe_step_level _ _ _ se He Le), He
    | rewrite (describe_step_throw _ _ _ _ He), He; reflexivity].
  cbn [bind].
  convert (_agreeableness this) sa Ha La;
    [rewrite (describe_step_level _ _ _ sa Ha La), Ha
    | rewrite (describe_step_throw _ _ _ _ Ha), Ha; reflexivity].
  cbn [bind].
  convert (_neuroticism this) sn Hn Ln;
    [rewrite (describe_step_level _ _ _ sn Hn Ln), Hn
    | rewrite (describe_step_throw _ _ _ _ Hn), Hn; reflexivity].
  reflexivity.
Qed.

Lemma toJSON_levels this :
  toJSON this
  = (l <- levels this ;;
     let '(so, sc, se, sa, sn) := l in
     Normal
       {| normalized :=
            [("openness", _openness this);
             ("conscientiousness", _conscientiousness this);
             ("extraversion", _extraversion this);
             ("agreeableness", _agreeableness this);
             ("neuroticism", _neuroticism this)];
          likert :=
            [("openness", so); ("conscientiousness", sc);
             ("extraversion", se); ("agreeableness", sa);
             ("neuroticism", sn)] |}).
Proof.
  unfold toJSON, levels.
  destruct (calculateLikertScore (_openness this)); [| reflexivity].
  destruct (calculateLikertScore (_conscientiousness this)); [| reflexivity].
  destruct (calculateLikertScore (_extraversion this)); [| reflexivity].
  destruct (calculateLikertScore (_agreeableness this)); [| reflexivity].
  destruct (calculateLikertScore (_neuroticism this)); reflexivity.
Qed.

Lemma toString_levels this :
  toString this
  = (l <- levels this ;;
     let '(so, sc, se, sa, sn) := l in
     Normal ("FFM[Normalized:{"
             ++ ("O:" ++ Num.Number_toString (_openness this)
                 ++ ", C:" ++ Num.Number_toString (_conscientiousness this)
                 ++ ", E:" ++ Num.Number_toString (_extraversion this)
                 ++ ", A:" ++ Num.Number_toString (_agreeableness this)
                 ++ ", N:" ++ Num.Number_toString (_neuroticism this))
             ++ "}, Likert:{"
             ++ ("O:" ++ Num.Number_toString so
                 ++ ", C:" ++ Num.Number_toString sc
                 ++ ", E:" ++ Num.Number_toString se
                 ++ ", A:" ++ Num.Number_toString sa
                 ++ ", N:" ++ Num.Number_toString sn)
             ++ "}]")).
Proof.
  unfold toString, levels.
  destruct (calculateLikertScore (_openness this)); [| reflexivity].
  destruct (calculateLikertScore (_conscientiousness this)); [| reflexivity].
  destruct (calculateLikertScore (_extraversion this)); [| reflexivity].
  destruct (calculateLikertScore (_agreeableness this)); [| reflexivity].
  destruct (calculateLikertScore (_neuroticism this)); reflexivity.
Qed.

Lemma append_assoc (s1 s2 s3 : string) :
  (s1 ++ s2) ++ s3 = s1 ++ s2 ++ s3.
Proof.
  induction s1 as [| c s1 IH]; cbn [append]; [reflexivity |].
  rewrite IH. reflexivity.
Qed.

Lemma Number_toString_level s :
  is_level s -> In (Num.Number_toString s) ["1"; "2"; "3"; "4"; "5"].
Proof.
  intros [-> | [-> | [-> | [-> | ->]]]]; vm_compute; tauto.
Qed.

Lemma adverb_level s :
  is_level s ->
  In (adverb s) ["not"; "slightly"; "somewhat"; "moderately"; "strongly"].
Proof.
  intros [-> | [-> | [-> | [-> | ->]]]]; vm_compute; tauto.
Qed.

(** X14: on an object whose fields are in range, [describe] completes
    normally with the fixed sentence: one clause per trait in the order
    openness, conscientiousness, extraversion, agreeableness, neuroticism,
    each clause the adverb of that trait's Likert level before the trait's
    adjective; the adverb is always one of the five words, never the
    empty initial description. *)
Theorem describe_format (this : FFM) :
  valid this ->
  exists so sc se sa sn,
    level openness this = Normal so
    /\ level conscientiousness this = Normal sc
    /\ level extraversion this = Normal se
    /\ level agreeableness this = Normal sa
    /\ level neuroticism this = Normal sn
    /\ (forall s, In s [so; sc; se; sa; sn] ->
          In (adverb s)
             ["not"; "slightly"; "somewhat"; "moderately"; "strongly"])
    /\ describe this
       = Normal ("According to the Five Factor Model this personality is: "
                 ++ adverb so ++ " open, "
                 ++ adverb sc ++ " conscientious, "
                 ++ adverb se ++ " extraverted, "
                 ++ adverb sa ++ " agreeable, and "
                 ++ adverb sn ++ " neurotic.").
Proof.
  intros V. rewrite describe_levels.
  destruct (levels_outcome this) as [[_ H] | [NV _]]; [| contradiction].
  destruct H as (so & sc & se & sa & sn & HL & Ho & Hc & He & Ha & Hn
                 & Lo & Lc & Le & La & Ln).
  exists so, sc, se, sa, sn. rewrite HL. cbn [bind].
  repeat (split; [assumption |]).
  split.
  - intros s [<- | [<- | [<- | [<- | [<- | []]]]]]; apply adverb_level;
      assumption.
  - rewrite !append_assoc. reflexivity.
Qed.

Lemma describe_format_witness :
  valid (mkFFM 0.1 0.2 0.3 0.4 1)
  /\ exists so sc se sa sn,
       level openness (mkFFM 0.1 0.2 0.3 0.4 1) = Normal so
       /\ level conscientiousness (mkFFM 0.1 0.2 0.3 0.4 1) = Normal sc
       /\ level extraversion (mkFFM 0.1 0.2 0.3 0.4 1) = Normal se
       /\ level agreeableness (mkFFM 0.1 0.2 0.3 0.4 1) = Normal sa
       /\ level neuroticism (mkFFM 0.1 0.2 0.3 0.4 1) = Normal sn
       /\ (forall s, In s [so; sc; se; sa; sn] ->
             In (adverb s)
                ["not"; "slightly"; "somewhat"; "moderately"; "strongly"])
       /\ describe (mkFFM 0.1 0.2 0.3 0.4 1)
          = Normal ("According to the Five Factor Model this personality is: "
                    ++ adverb so ++ " open, "
                    ++ adverb sc ++ " conscientious, "
                    ++ adverb se ++ " extraverted, "
                    ++ adverb sa ++ " agreeable, and "
                    ++ adverb sn ++ " neurotic.").
Proof.
  assert (V : valid (mkFFM 0.1 0.2 0.3 0.4 1))
    by (intros [| | | |]; reflexivity).
  split; [exact V | apply (describe_format (mkFFM 0.1 0.2 0.3 0.4 1) V)].
Defined.

(** C6: [describe] maps the Likert score of each trait to an adverb, 1 to
    "not", 2 to "slightly", 3 to "somewhat", 4 to "moderately" and 5 to
    "strongly", and composes the fixed sentence in the fixed trait order:
    for every object whose fields are in range, the result is the sentence
    whose five clauses carry the adverbs of the scores of openness,
    conscientiousness, extraversion, agreeableness and neuroticism, each of
    the scores being one of 1 to 5.  In particular the profile
    (0.8, 0.4, 0.6, 0.9, 0.2) is described as strongly open, somewhat
    conscientious, moderately extraverted, strongly agreeable, and
    slightly neurotic. *)
Theorem describe_adverbs :
  (adverb 1 = "not" /\ adverb 2 = "slightly" /\ adverb 3 = "somewhat"
   /\ adverb 4 = "moderately" /\ adverb 5 = "strongly")
  /\ (forall this : FFM,
        valid this ->
        exists so sc se sa sn,
          calculateLikertScore (get_openness this) = Normal so
          /\ calculateLikertScore (get_conscientiousness this) = Normal sc
          /\ calculateLikertScore (get_extraversion this) = Normal se
          /\ calculateLikertScore (get_agreeableness this) = Normal sa
          /\ calculateLikertScore (get_neuroticism this) = Normal sn
          /\ is_level so /\ is_level sc /\ is_level se /\ is_level sa
          /\ is_level sn
          /\ describe this
             = Normal
                 ("According to the Five Factor Model this personality is: "
                  ++ adverb so ++ " open, "
                  ++ adverb sc ++ " conscientious, "
                  ++ adverb se ++ " extraverted, "
                  ++ adverb sa ++ " agreeable, and "
                  ++ adverb sn ++ " neurotic."))
  /\ bind (constructor 0.8 0.4 0.6 0.9 0.2) describe
     = Normal "According to the Five Factor Model this personality is: strongly open, somewhat conscientious, moderately extraverted, strongly agreeable, and slightly neurotic.".
Proof.
  split; [repeat split; vm_compute; reflexivity |].
  split; [| vm_compute; reflexivity].
  intros this V. rewrite describe_levels.
  destruct (levels_outcome this) as [[_ H] | [NV _]]; [| contradiction].
  destruct H as (so & sc & se & sa & sn & HL & Ho & Hc & He & Ha & Hn
                 & Lo & Lc & Le & La & Ln).
  exists so, sc, se, sa, sn. rewrite HL. cbn [bind].
  repeat (split; [assumption |]).
  rewrite !append_assoc. reflexivity.
Qed.

Lemma describe_adverbs_witness :
  valid (mkFFM 0.1 0.5 0.7 0.3 1)
  /\ exists so sc se sa sn,
       calculateLikertScore 0.1 = Normal so
       /\ calculateLikertScore 0.5 = Normal sc
       /\ calculateLikertScore 0.7 = Normal se
       /\ calculateLikertScore 0.3 = Normal sa
       /\ calculateLikertScore 1 = Normal sn
       /\ is_level so /\ is_level sc /\ is_level se /\ is_level sa
       /\ is_level sn
       /\ describe (mkFFM 0.1 0.5 0.7 0.3 1)
          = Normal
              ("According to the Five Factor Model this personality is: "
               ++ adverb so ++ " open, "
               ++ adverb sc ++ " conscientious, "
               ++ adverb se ++ " extraverted, "
               ++ adverb sa ++ " agreeable, and "
               ++ adverb sn ++ " neurotic.").
Proof.
  assert (V : valid (mkFFM 0.1 0.5 0.7 0.3 1))
    by (intros [| | | |]; reflexivity).
  split; [exact V |].
  apply (proj1 (proj2 describe_adverbs) (mkFFM 0.1 0.5 0.7 0.3 1) V).
Defined.

(** X15: on an object whose fields are in range, [toJSON] completes
    normally with two nested objects keyed by the five property names in
    the order of the class: [normalized] holds the stored numbers
    unchanged and [likert] holds their Likert levels. *)
Theorem toJSON_format (this : FFM) :
  valid this ->
  exists so sc se sa sn,
    level openness this = Normal so
    /\ level conscientiousness this = Normal sc
    /\ level extraversion this = Normal se
    /\ level agreeableness this = Normal sa
    /\ level neuroticism this = Normal sn
    /\ (forall s, In s [so; sc; se; sa; sn] -> is_level s)
    /\ toJSON this
       = Normal
           {| normalized :=
                [("openness", get_openness this);
                 ("conscientiousness", get_conscientiousness this);
                 ("extraversion", get_extraversion this);
                 ("agreeableness", get_agreeableness this);
                 ("neuroticism", get_neuroticism this)];
              likert :=
                [("openness", so); ("conscientiousness", sc);
                 ("extraversion", se); ("agreeableness", sa);
                 ("neuroticism", sn)] |}.
Proof.
  intros V. rewrite toJSON_levels.
  destruct (levels_outcome this) as [[_ H] | [NV _]]; [| contradiction].
  destruct H as (so & sc & se & sa & sn & HL & Ho & Hc & He & Ha & Hn
                 & Lo & Lc & Le & La & Ln).
  exists so, sc, se, sa, sn. rewrite HL. cbn [bind].
  repeat (split; [assumption |]).
  split; [| reflexivity].
  intros s [<- | [<- | [<- | [<- | [<- | []]]]]]; assumption.
Qed.

Lemma toJSON_format_witness :
  valid (mkFFM 0 0.3 0.5 0.7 0.9)
  /\ exists so sc se sa sn,
       level openness (mkFFM 0 0.3 0.5 0.7 0.9) = Normal so
       /\ level conscientiousness (mkFFM 0 0.3 0.5 0.7 0.9) = Normal sc
       /\ level extraversion (mkFFM 0 0.3 0.5 0.7 0.9) = Normal se
       /\ level agreeableness (mkFFM 0 0.3 0.5 0.7 0.9) = Normal sa
       /\ level neuroticism (mkFFM 0 0.3 0.5 0.7 0.9) = Normal sn
       /\ (forall s, In s [so; sc; se; sa; sn] -> is_level s)
       /\ toJSON (mkFFM 0 0.3 0.5 0.7 0.9)
          = Normal
              {| normalized :=
                   [("openness", 0%float); ("conscientiousness", 0.3%float);
                    ("extraversion", 0.5%float); ("agreeableness", 0.7%float);
                    ("neuroticism", 0.9%float)];
                 likert :=
                   [("openness", so); ("conscientiousness", sc);
                    ("extraversion", se); ("agreeableness", sa);
                    ("neuroticism", sn)] |}.
Proof.
  assert (V : valid (mkFFM 0 0.3 0.5 0.7 0.9))
    by (intros [| | | |]; reflexivity).
  split; [exact V | apply (toJSON_format (mkFFM 0 0.3 0.5 0.7 0.9) V)].
Defined.

(** X16: what [toJSON] returns is enough to rebuild the object: whenever
    it completes, the constructor applied to the five entries of
    [normalized] completes with an object equal to the original. *)
Theorem toJSON_roundtrip (this : FFM) (j : json_view) :
  toJSON this = Normal j ->
  constructor (prop (normalized j) "openness" nan)
              (prop (normalized j) "conscientiousness" nan)
              (prop (normalized j) "extraversion" nan)
              (prop (normalized j) "agreeableness" nan)
              (prop (normalized j) "neuroticism" nan)
  = Normal this.
Proof.
  rewrite toJSON_levels.
  destruct (levels_outcome this) as [[V H] | [_ T]].
  - destruct H as (so & sc & se & sa & sn & HL & _). rewrite HL. cbn [bind].
    intros E. injection E as <-. cbn [normalized].
    change (prop _ "openness" nan) with (_openness this).
    change (prop _ "conscientiousness" nan) with (_conscientiousness this).
    change (prop _ "extraversion" nan) with (_extraversion this).
    change (prop _ "agreeableness" nan) with (_agreeableness this).
    change (prop _ "neuroticism" nan) with (_neuroticism this).
    apply constructor_valid. assumption.
  - rewrite T. discriminate.
Qed.

Lemma toJSON_roundtrip_witness :
  exists j,
    toJSON (mkFFM 0.2 0.4 0.6 0.8 1) = Normal j
    /\ constructor (prop (normalized j) "openness" nan)
                   (prop (normalized j) "conscientiousness" nan)
                   (prop (normalized j) "extraversion" nan)
                   (prop (normalized j) "agreeableness" nan)
                   (prop (normalized j) "neuroticism" nan)
       = Normal (mkFFM 0.2 0.4 0.6 0.8 1).
Proof.
  eexists. split; [vm_compute; reflexivity |].
  apply (toJSON_roundtrip (mkFFM 0.2 0.4 0.6 0.8 1)). vm_compute. reflexivity.
Defined.

(** X17: on an object whose fields are in range, [toString] completes
    normally with the text [FFM[Normalized:{...}, Likert:{...}]]: both
    blocks list O, C, E, A, N in this order, the first with the stored
    numbers converted to text, the second with the Likert levels, each of
    which prints as a single digit from 1 to 5. *)
Theorem toString_format (this : FFM) :
  valid this ->
  exists so sc se sa sn,
    level openness this = Normal so
    /\ level conscientiousness this = Normal sc
    /\ level extraversion this = Normal se
    /\ level agreeableness this = Normal sa
    /\ level neuroticism this = Normal sn
    /\ (forall s, In s [so; sc; se; sa; sn] ->
          In (Num.Number_toString s) ["1"; "2"; "3"; "4"; "5"])
    /\ toString this
       = Normal ("FFM[Normalized:{O:"
                 ++ Num.Number_toString (get_openness this)
                 ++ ", C:" ++ Num.Number_toString (get_conscientiousness this)
                 ++ ", E:" ++ Num.Number_toString (get_extraversion this)
                 ++ ", A:" ++ Num.Number_toString (get_agreeableness this)
                 ++ ", N:" ++ Num.Number_toString (get_neuroticism this)
                 ++ "}, Likert:{O:" ++ Num.Number_toString so
                 ++ ", C:" ++ Num.Number_toString sc
                 ++ ", E:" ++ Num.Number_toString se
                 ++ ", A:" ++ Num.Number_toString sa
                 ++ ", N:" ++ Num.Number_toString sn ++ "}]").
Proof.
  intros V. rewrite toString_levels.
  destruct (levels_outcome this) as [[_ H] | [NV _]]; [| contradiction].
  destruct H as (so & sc & se & sa & sn & HL & Ho & Hc & He & Ha & Hn
                 & Lo & Lc & Le & La & Ln).
  exists so, sc, se, sa, sn. rewrite HL. cbn [bind].
  repeat (split; [assumption |]).
  split.
  - intros s [<- | [<- | [<- | [<- | [<- | []]]]]];
      apply Number_toString_level; assumption.
  - unfold get_openness, get_conscientiousness, get_extraversion,
      get_agreeableness, get_neuroticism.
    rewrite !append_assoc. reflexivity.
Qed.

Lemma toString_format_witness :
  valid (mkFFM 0.1 0.3 0.5 0.7 0.9)
  /\ exists so sc se sa sn,
       level openness (mkFFM 0.1 0.3 0.5 0.7 0.9) = Normal so
       /\ level conscientiousness (mkFFM 0.1 0.3 0.5 0.7 0.9) = Normal sc
       /\ level extraversion (mkFFM 0.1 0.3 0.5 0.7 0.9) = Normal se
       /\ level agreeableness (mkFFM 0.1 0.3 0.5 0.7 0.9) = Normal sa
       /\ level neuroticism (mkFFM 0.1 0.3 0.5 0.7 0.9) = Normal sn
       /\ (forall s, In s [so; sc; se; sa; sn] ->
             In (Num.Number_toString s) ["1"; "2"; "3"; "4"; "5"])
       /\ toString (mkFFM 0.1 0.3 0.5 0.7 0.9)
          = Normal ("FFM[Normalized:{O:"
                    ++ Num.Number_toString 0.1
                    ++ ", C:" ++ Num.Number_toString 0.3
                    ++ ", E:" ++ Num.Number_toString 0.5
                    ++ ", A:" ++ Num.Number_toString 0.7
                    ++ ", N:" ++ Num.Number_toString 0.9
                    ++ "}, Likert:{O:" ++ Num.Number_toString so
                    ++ ", C:" ++ Num.Number_toString sc
                    ++ ", E:" ++ Num.Number_toString se
                    ++ ", A:" ++ Num.Number_toString sa
                    ++ ", N:" ++ Num.Number_toString sn ++ "}]").
Proof.
  assert (V : valid (mkFFM 0.1 0.3 0.5 0.7 0.9))
    by (intros [| | | |]; reflexivity).
  split; [exact V | apply (toString_format (mkFFM 0.1 0.3 0.5 0.7 0.9) V)].
Defined.

(** X18: the three views fail together: if any stored field is out of
    range (the backing fields are ordinary properties, so code outside the
    class can write them), [describe], [toJSON] and [toString] all throw
    the generic range message and return nothing. *)
Theorem views_throw (this : FFM) :
  ~ valid this ->
  describe this = Throw range_message
  /\ toJSON this = Throw range_message
  /\ toString this = Throw range_message.
Proof.
  intros NV. rewrite describe_levels, toJSON_levels, toString_levels.
  destruct (levels_outcome this) as [[V _] | [_ T]]; [contradiction |].
  rewrite T. repeat split.
Qed.

Lemma views_throw_witness :
  ~ valid (mkFFM 0.1 0.2 3 0.4 0.5)
  /\ describe (mkFFM 0.1 0.2 3 0.4 0.5) = Throw range_message
  /\ toJSON (mkFFM 0.1 0.2 3 0.4 0.5) = Throw range_message
  /\ toString (mkFFM 0.1 0.2 3 0.4 0.5) = Throw range_message.
Proof.
  assert (NV : ~ valid (mkFFM 0.1 0.2 3 0.4 0.5)).
  { intros V. specialize (V extraversion). vm_compute in V. discriminate V. }
  split; [exact NV | apply (views_throw (mkFFM 0.1 0.2 3 0.4 0.5) NV)].
Defined.
